(** * AsthmaGuard: risk assessment and subscription coordinator

    A shallow embedding of the decision logic of the repository:

    - [Risk]: the [risk] memo of the React front end (the body of the
      [useMemo] callback in [App]), which turns the fetched weather payload
      into a [RiskAssessment];
    - [Api]: the subscription helpers and the [/subscription/:email],
      [/unsubscribe] and [/notify] routes of [src/api.ts].

    Numbers of the weather payload arrive through [response.json()], so they
    are finite IEEE doubles; every such value is a rational and the
    comparisons of the source against the literals 1, 3, 4, 10, 32 and 75
    agree with the comparisons of rationals.  Readings are therefore values of
    [Q].  A JavaScript string is modelled by a [string], read as its
    sequence of code units (those below 256). *)

From Stdlib Require Import QArith Qround Lqa ZArith String Ascii List Bool.
From stdpp Require Import gmap strings.
Import ListNotations.

Open Scope string_scope.

(** ** Comparison operators of the source on rational readings *)

Definition Qltb (x y : Q) : bool := negb (Qle_bool y x).
Definition Qgtb (x y : Q) : bool := Qltb y x.
Definition Qgeb (x y : Q) : bool := Qle_bool y x.

(** * The risk engine *)

Module Risk.

(** [RiskAssessment["level"]]. *)
Inductive Level := Low | Moderate | High | Extreme.

Record RiskAssessment := {
  level : Level;
  color : string;
  bgColor : string;
  advice : list string;
  triggers : list string
}.

(** The fields of [WeatherData] that [risk] reads:
    [data.current.main.temp], [data.current.main.humidity],
    [data.current.wind.speed], and [data.aqi.list] with the [main.aqi] of
    each entry. *)
Record WeatherData := {
  current_main_temp : Q;
  current_main_humidity : Q;
  current_wind_speed : Q;
  aqi_list : list Q
}.

(** [x || 1] on an optional number: [undefined] and [0] are falsy. *)
Definition or_one (x : option Q) : Q :=
  match x with
  | None => 1%Q
  | Some a => if Qeq_bool a 0 then 1%Q else a
  end.

(** The three locals [score], [advice], [triggers] of the callback. *)
Record Locals := {
  score : Z;
  l_advice : list string;
  l_triggers : list string
}.

Definition init : Locals :=
  {| score := 0; l_advice := []; l_triggers := [] |}.

(** One rule body: [score += n; triggers.push(t); advice.push(a)]. *)
Definition bump (n : Z) (t a : string) (s : Locals) : Locals :=
  {| score := score s + n;
     l_advice := l_advice s ++ [a];
     l_triggers := l_triggers s ++ [t] |}.

Definition aqi_rule (aqi : Q) (s : Locals) : Locals :=
  if Qgeb aqi 4 then
    bump 3 "Poor Air Quality"
      "Air quality is very poor. Avoid all outdoor activities and keep windows closed." s
  else if Qgeb aqi 3 then
    bump 2 "Moderate Air Pollution"
      "Air quality is moderate. Sensitive individuals should limit prolonged outdoor exertion." s
  else s.

Definition temp_rule (temp : Q) (s : Locals) : Locals :=
  if Qltb temp 10 then
    bump 2 "Cold Air"
      "Cold air can trigger bronchospasm. Wear a scarf to warm the air you breathe." s
  else if Qgtb temp 32 then
    bump 1 "Extreme Heat"
      "High heat can increase ozone levels. Stay in air-conditioned spaces." s
  else s.

Definition humidity_rule (humidity : Q) (s : Locals) : Locals :=
  if Qgtb humidity 75 then
    bump 2 "High Humidity"
      "High humidity can harbor mold and dust mites. Use a dehumidifier." s
  else s.

Definition wind_rule (windSpeed : Q) (s : Locals) : Locals :=
  if Qgtb windSpeed 10 then
    bump 1 "High Wind (Allergens)"
      "Wind can stir up pollen and dust. Keep windows closed." s
  else s.

(** The four [if] statements in sequence, on the four readings. *)
Definition rules (temp humidity windSpeed aqi : Q) : Locals :=
  wind_rule windSpeed
    (humidity_rule humidity
      (temp_rule temp
        (aqi_rule aqi init))).

(** The chain of [return]s that ends the callback. *)
Definition conclude (s : Locals) : RiskAssessment :=
  if (score s >=? 5)%Z then
    {| level := Extreme; color := "text-rose-600"; bgColor := "bg-rose-50";
       advice := l_advice s; triggers := l_triggers s |}
  else if (score s >=? 3)%Z then
    {| level := High; color := "text-orange-500"; bgColor := "bg-orange-50";
       advice := l_advice s; triggers := l_triggers s |}
  else if (score s >=? 1)%Z then
    {| level := Moderate; color := "text-amber-500"; bgColor := "bg-amber-50";
       advice := l_advice s; triggers := l_triggers s |}
  else
    {| level := Low; color := "text-emerald-500"; bgColor := "bg-emerald-50";
       advice := ["Conditions are currently stable. Enjoy your day but keep your rescue inhaler nearby."];
       triggers := ["None detected"] |}.

(** The assessment of one snapshot of readings. *)
Definition assess (temp humidity windSpeed aqi : Q) : RiskAssessment :=
  conclude (rules temp humidity windSpeed aqi).

(** The reading of the air-quality index:
    [data.aqi.list[0]?.main.aqi || 1]. *)
Definition aqi_of (data : WeatherData) : Q := or_one (head (aqi_list data)).

(** The value of [score] when the callback reaches its [return]s. *)
Definition score_of (data : WeatherData) : Z :=
  score (rules (current_main_temp data) (current_main_humidity data)
               (current_wind_speed data) (aqi_of data)).

(** [risk], as a function of the [data] state of the component. *)
Definition risk (data : option WeatherData) : RiskAssessment :=
  match data with
  | None =>
      {| level := Low; color := "text-emerald-500"; bgColor := "bg-emerald-50";
         advice := []; triggers := [] |}
  | Some d =>
      let temp := current_main_temp d in
      let humidity := current_main_humidity d in
      let windSpeed := current_wind_speed d in
      let aqi := aqi_of d in
      assess temp humidity windSpeed aqi
  end.

(** Severity order of the levels. *)
Definition rank (l : Level) : Z :=
  match l with Low => 0 | Moderate => 1 | High => 2 | Extreme => 3 end.

End Risk.

(** * The subscription and notification routes of [src/api.ts] *)

Module Api.

(** ** The pattern [emailRegex]

    Regular expressions over code units, with the character classes the
    pattern uses, matched by derivatives. *)

(** [\s] on the code units below 256: tab, line feed, vertical tab, form
    feed, carriage return, space and no-break space. *)
Definition is_space (c : ascii) : bool :=
  let n := nat_of_ascii c in
  ((9 <=? n)%nat && (n <=? 13)%nat) || (n =? 32)%nat || (n =? 160)%nat.

Inductive item := Chr (c : ascii) | Space.

Definition item_has (i : item) (c : ascii) : bool :=
  match i with
  | Chr d => Ascii.eqb d c
  | Space => is_space c
  end.

(** A literal character, or a negated class [[^...]]. *)
Inductive atom := Lit (c : ascii) | NoneOf (items : list item).

Definition atom_has (a : atom) (c : ascii) : bool :=
  match a with
  | Lit d => Ascii.eqb d c
  | NoneOf items => negb (existsb (fun i => item_has i c) items)
  end.

Inductive regex :=
  | Void
  | Eps
  | Atom (a : atom)
  | Seq (r1 r2 : regex)
  | Alt (r1 r2 : regex)
  | Star (r : regex).

(** [r+] *)
Definition Plus (r : regex) : regex := Seq r (Star r).

Fixpoint nullable (r : regex) : bool :=
  match r with
  | Void => false
  | Eps => true
  | Atom _ => false
  | Seq r1 r2 => nullable r1 && nullable r2
  | Alt r1 r2 => nullable r1 || nullable r2
  | Star _ => true
  end.

Fixpoint deriv (c : ascii) (r : regex) : regex :=
  match r with
  | Void => Void
  | Eps => Void
  | Atom a => if atom_has a c then Eps else Void
  | Seq r1 r2 =>
      if nullable r1 then Alt (Seq (deriv c r1) r2) (deriv c r2)
      else Seq (deriv c r1) r2
  | Alt r1 r2 => Alt (deriv c r1) (deriv c r2)
  | Star r1 => Seq (deriv c r1) (Star r1)
  end.

(** [r.test(s)] for a pattern anchored by [^] and [$] at both ends: the
    whole of [s] has to match. *)
Fixpoint test (r : regex) (s : string) : bool :=
  match s with
  | EmptyString => nullable r
  | String c s' => test (deriv c r) s'
  end.

(** [[^\s@]] *)
Definition not_space_at : atom := NoneOf [Space; Chr "@"].

(** [/^[^\s@]+@[^\s@]+\.[^\s@]+$/] *)
Definition emailRegex : regex :=
  Seq (Plus (Atom not_space_at))
    (Seq (Atom (Lit "@"))
      (Seq (Plus (Atom not_space_at))
        (Seq (Atom (Lit "."))
          (Plus (Atom not_space_at))))).

(** [haystack.includes(needle)] *)
Fixpoint includes (haystack needle : string) : bool :=
  String.prefix needle haystack ||
  match haystack with
  | EmptyString => false
  | String _ rest => includes rest needle
  end.

(** ** JSON values sent back by the routes *)

#[local] Set Warnings "-register-all".

Inductive Json :=
  | JBool (b : bool)
  | JStr (s : string)
  | JObj (fields : list (string * Json)).

Record Response := { status : Z; body : Json }.

(** ** The subscriptions table and the mail provider *)

(** A row of [subscriptions], apart from its key [email]. *)
Record Row := {
  auto_notify : bool;
  last_notified_at : option Z;
  created_at : Z
}.

(** The statements the helpers send to the database. *)
Inductive Statement :=
  | Select (email : string)
  | Upsert (email : string) (autoNotify : bool)
  | Delete (email : string).

(** The argument of [resend.emails.send]. *)
Record Email := {
  from : string;
  to : list string;
  subject : string;
  html : string
}.

(** What [resend.emails.send] does: it resolves to [{ data }], resolves to
    [{ error }] with [error.message], or throws. *)
Inductive SendOutcome :=
  | Delivered (data : Json)
  | Rejected (message : string)
  | Thrown.

(** The process environment and the module-level constants:
    [process.env.POSTGRES_URL] (set or not), [localDb] (connected or [null]),
    [resend] ([null] without [RESEND_API_KEY]; otherwise the provider, given
    by what it answers to each mail), [process.env.EMAIL_FROM], and the
    database clock behind [CURRENT_TIMESTAMP].  [db_down n] tells whether the
    database fails the [n]-th statement sent to it for a reason of its own:
    the connection is lost, the file is locked. *)
Record Env := {
  POSTGRES_URL : bool;
  localDb : bool;
  resend : option (Email -> SendOutcome);
  EMAIL_FROM : option string;
  CURRENT_TIMESTAMP : Z;
  db_down : nat -> bool
}.

(** The state the routes act on: the [subscriptions] table of the connected
    database, keyed by [email] and compared as the column is (byte for byte,
    the default of both SQLite [TEXT] and Postgres [VARCHAR]); the statements
    sent to the database so far, whether it executed them or threw; the
    mails handed to the provider so far. *)
Record World := {
  subscriptions : gmap string Row;
  executed : list Statement;
  dispatched : list Email
}.

(** Handlers are state transformers over [World]. *)
Definition M (A : Type) : Type := World -> A * World.

Definition ret {A} (a : A) : M A := fun w => (a, w).

Definition bind {A B} (m : M A) (k : A -> M B) : M B :=
  fun w => let (a, w') := m w in k a w'.

Notation "x <- m ;; k" := (bind m (fun x => k))
  (at level 100, m at next level, right associativity).
Notation "m ;;; k" := (bind m (fun _ => k))
  (at level 100, right associativity).

(** A call either returns or throws. *)
Inductive Result (A : Type) :=
  | Returned (a : A)
  | Threw.

Arguments Returned {A} a.
Arguments Threw {A}.

(** Whether a string holds the code unit 0. *)
Fixpoint has_nul (s : string) : bool :=
  match s with
  | EmptyString => false
  | String c s' => Ascii.eqb c Ascii.zero || has_nul s'
  end.

(** The statements Postgres refuses whatever its state: a text parameter
    with the code unit 0 is not valid text, and a key of more than 255
    characters does not fit the column [email VARCHAR(255)].  SQLite,
    whose column is [TEXT], refuses neither. *)
Definition refuses (env : Env) (q : Statement) : bool :=
  POSTGRES_URL env &&
  match q with
  | Select e => has_nul e
  | Delete e => has_nul e
  | Upsert e _ => has_nul e || (255 <? String.length e)%nat
  end.

(** Whether the driver throws on a statement sent in a given state. *)
Definition throws (env : Env) (q : Statement) (w : World) : bool :=
  db_down env (length (executed w)) || refuses env q.

Definition execute (q : Statement) (t : gmap string Row) : M unit :=
  fun w => (tt, {| subscriptions := t;
                   executed := executed w ++ [q];
                   dispatched := dispatched w |}).

(** A statement sent to the database: when the driver throws, the table is
    as it was; otherwise the statement returns [answer] and leaves the
    table [t]. *)
Definition run {A} (env : Env) (q : Statement) (answer : A)
  (t : gmap string Row) : M (Result A) :=
  fun w =>
    if throws env q w
    then (Threw, snd (execute q (subscriptions w) w))
    else (Returned answer, snd (execute q t w)).

(** [SELECT * FROM subscriptions WHERE email = ?] *)
Definition db_select (env : Env) (email : string) : M (Result (option Row)) :=
  fun w =>
    run env (Select email) (subscriptions w !! email) (subscriptions w) w.

(** The row an upsert leaves: the flag, and the other columns of the row it
    found or their defaults. *)
Definition upserted (now : Z) (old : option Row) (flag : bool) : Row :=
  match old with
  | Some r =>
      {| auto_notify := flag;
         last_notified_at := last_notified_at r;
         created_at := created_at r |}
  | None =>
      {| auto_notify := flag;
         last_notified_at := None;
         created_at := now |}
  end.

(** [INSERT INTO subscriptions (email, auto_notify) VALUES (?, ?)
     ON CONFLICT (email) DO UPDATE SET auto_notify = excluded.auto_notify] *)
Definition db_upsert (env : Env) (email : string) (autoNotify : bool)
  : M (Result unit) :=
  fun w =>
    let t := subscriptions w in
    let row := upserted (CURRENT_TIMESTAMP env) (t !! email) autoNotify in
    run env (Upsert email autoNotify) tt (<[email := row]> t) w.

(** [DELETE FROM subscriptions WHERE email = ?] *)
Definition db_delete (env : Env) (email : string) : M (Result unit) :=
  fun w =>
    run env (Delete email) tt (delete email (subscriptions w)) w.

(** [await resend.emails.send(mail)] *)
Definition send (provider : Email -> SendOutcome) (mail : Email) : M SendOutcome :=
  fun w => (provider mail,
            {| subscriptions := subscriptions w;
               executed := executed w;
               dispatched := dispatched w ++ [mail] |}).

(** [try { await m } catch (err) { console.error(...) }], for its effect. *)
Definition attempt {A} (m : M (Result A)) : M unit :=
  _ <- m ;; ret tt.

(** ** Helper functions

    Each helper tries Postgres when [POSTGRES_URL] is set, else SQLite when
    [localDb] is connected, and else does nothing.  Only the Postgres
    branches of [getSubscription] and [upsertSubscription] catch what the
    driver throws; every other call lets it through to the route. *)

Definition getSubscription (env : Env) (email : string)
  : M (Result (option Row)) :=
  if POSTGRES_URL env then
    rows <- db_select env email ;;
    match rows with
    | Returned row => ret (Returned row)
    | Threw => ret (Returned None)
    end
  else if localDb env then db_select env email
  else ret (Returned None).

Definition upsertSubscription (env : Env) (email : string) (autoNotify : bool)
  : M (Result unit) :=
  if POSTGRES_URL env then
    attempt (db_upsert env email autoNotify) ;;; ret (Returned tt)
  else if localDb env then db_upsert env email autoNotify
  else ret (Returned tt).

Definition deleteSubscription (env : Env) (email : string) : M (Result unit) :=
  if POSTGRES_URL env then db_delete env email
  else if localDb env then db_delete env email
  else ret (Returned tt).

(** ** Routes *)

Definition json (code : Z) (fields : list (string * Json)) : M Response :=
  ret {| status := code; body := JObj fields |}.

(** [api.get("/subscription/:email")] *)
Definition get_subscription (env : Env) (email : string) : M Response :=
  found <- getSubscription env email ;;
  match found with
  | Returned row =>
      json 200 [("subscribed", JBool (bool_decide (is_Some row)));
                ("autoNotify", JBool (match row with
                                      | Some r => auto_notify r
                                      | None => false
                                      end))]
  | Threw =>
      json 200 [("subscribed", JBool false); ("autoNotify", JBool false);
                ("error", JStr "Database unavailable")]
  end.

(** [api.post("/unsubscribe")] *)
Definition post_unsubscribe (env : Env) (email : string) : M Response :=
  deleted <- deleteSubscription env email ;;
  match deleted with
  | Returned _ =>
      json 200 [("success", JBool true);
                ("message", JStr "Unsubscribed successfully")]
  | Threw => json 500 [("error", JStr "Database error")]
  end.

(** The body of a [/notify] request; [toEmail] may be missing. *)
Record NotifyBody := {
  message : string;
  nb_subject : string;
  toEmail : option string;
  saveEmail : bool;
  autoNotify : bool
}.

(** [s || fallback] on strings: the empty string is falsy. *)
Definition or_else (s : option string) (fallback : string) : string :=
  match s with
  | None | Some "" => fallback
  | Some v => v
  end.

(** [api.post("/notify")]; the guard is
    [!toEmail || !emailRegex.test(toEmail)], where a missing [toEmail] and
    the empty string are both falsy. *)
Definition post_notify (env : Env) (req : NotifyBody) : M Response :=
  match toEmail req with
  | None => json 400 [("error", JStr "Please provide a valid email address.")]
  | Some addr =>
      if String.eqb addr "" || negb (test emailRegex addr) then
        json 400 [("error", JStr "Please provide a valid email address.")]
      else
        (if saveEmail req
         then attempt (upsertSubscription env addr (autoNotify req))
         else ret tt) ;;;
        match resend env with
        | None =>
            json 200 [("success", JBool true);
                      ("message", JStr "Notification simulated (RESEND_API_KEY missing)");
                      ("simulated", JBool true)]
        | Some provider =>
            let fromEmail :=
              or_else (EMAIL_FROM env) "AsthmaGuard <onboarding@resend.dev>" in
            outcome <- send provider {| from := fromEmail; to := [addr];
                                        subject := nb_subject req;
                                        html := message req |} ;;
            match outcome with
            | Thrown => json 500 [("error", JStr "Internal server error")]
            | Rejected msg =>
                if includes msg "onboarding" then
                  json 403 [("error", JStr "Resend Onboarding Limit: You can only send emails to your own verified address while in onboarding mode.")]
                else
                  json 500 [("error", JStr (or_else (Some msg) "Failed to send email"))]
            | Delivered data =>
                json 200 [("success", JBool true); ("data", data)]
            end
        end
  end.

End Api.

(** * The scoring table of the specification

    The table of section 4.1, read as the specification words it: rows in
    evaluation order, grouped where a row is the [else if] of the row before
    it, so that within a group only the first row whose condition holds is
    matched. *)

Module Table.

Record Snapshot := {
  temperatureC : Q;
  humidityPct : Q;
  windSpeedMps : Q;
  airQualityIndex : Q
}.

Record Entry := {
  condition : Snapshot -> bool;
  delta : Z;
  label : string;
  text : string
}.

Definition aqi_rows : list Entry :=
  [ {| condition := fun s => Qgeb (airQualityIndex s) 4; delta := 3;
       label := "Poor Air Quality";
       text := "Air quality is very poor. Avoid all outdoor activities and keep windows closed." |};
    {| condition := fun s => Qgeb (airQualityIndex s) 3; delta := 2;
       label := "Moderate Air Pollution";
       text := "Air quality is moderate. Sensitive individuals should limit prolonged outdoor exertion." |} ].

Definition temperature_rows : list Entry :=
  [ {| condition := fun s => Qltb (temperatureC s) 10; delta := 2;
       label := "Cold Air";
       text := "Cold air can trigger bronchospasm. Wear a scarf to warm the air you breathe." |};
    {| condition := fun s => Qgtb (temperatureC s) 32; delta := 1;
       label := "Extreme Heat";
       text := "High heat can increase ozone levels. Stay in air-conditioned spaces." |} ].

Definition humidity_rows : list Entry :=
  [ {| condition := fun s => Qgtb (humidityPct s) 75; delta := 2;
       label := "High Humidity";
       text := "High humidity can harbor mold and dust mites. Use a dehumidifier." |} ].

Definition wind_rows : list Entry :=
  [ {| condition := fun s => Qgtb (windSpeedMps s) 10; delta := 1;
       label := "High Wind (Allergens)";
       text := "Wind can stir up pollen and dust. Keep windows closed." |} ].

Definition table : list (list Entry) :=
  [aqi_rows; temperature_rows; humidity_rows; wind_rows].

(** The row of a group that a snapshot matches, if any: the first one whose
    condition holds. *)
Definition first_match (s : Snapshot) (group : list Entry) : list Entry :=
  match find (fun e => condition e s) group with
  | Some e => [e]
  | None => []
  end.

(** The rows matched by a snapshot, in table order. *)
Definition matched (s : Snapshot) : list Entry :=
  concat (map (first_match s) table).

Definition total (s : Snapshot) : Z :=
  fold_right Z.add 0%Z (map delta (matched s)).

Definition level_of (n : Z) : Risk.Level :=
  if (5 <=? n)%Z then Risk.Extreme
  else if (3 <=? n)%Z then Risk.High
  else if (1 <=? n)%Z then Risk.Moderate
  else Risk.Low.

Definition stable_advice : string :=
  "Conditions are currently stable. Enjoy your day but keep your rescue inhaler nearby.".

Definition triggers_of (s : Snapshot) : list string :=
  if (total s =? 0)%Z then ["None detected"] else map label (matched s).

Definition advice_of (s : Snapshot) : list string :=
  if (total s =? 0)%Z then [stable_advice] else map text (matched s).

(** The snapshot that [risk] takes from the payload. *)
Definition snapshot (d : Risk.WeatherData) : Snapshot :=
  {| temperatureC := Risk.current_main_temp d;
     humidityPct := Risk.current_main_humidity d;
     windSpeedMps := Risk.current_wind_speed d;
     airQualityIndex := Risk.aqi_of d |}.

End Table.

(** ** What each rule of [risk] adds to the score *)

Definition aqi_points (a : Q) : Z :=
  if Qgeb a 4 then 3 else if Qgeb a 3 then 2 else 0.
Definition temp_points (t : Q) : Z :=
  if Qltb t 10 then 2 else if Qgtb t 32 then 1 else 0.
Definition humidity_points (h : Q) : Z := if Qgtb h 75 then 2 else 0.
Definition wind_points (w : Q) : Z := if Qgtb w 10 then 1 else 0.

(** The effect on the locals of matching one row of the table. *)
Definition apply_entry (s : Risk.Locals) (e : Table.Entry) : Risk.Locals :=
  Risk.bump (Table.delta e) (Table.label e) (Table.text e) s.

(** The payload with the given readings and a single air-quality entry. *)
Definition reading (t h w a : Q) : Risk.WeatherData :=
  {| Risk.current_main_temp := t; Risk.current_main_humidity := h;
     Risk.current_wind_speed := w; Risk.aqi_list := [a] |}.

(** The assessment of readings [t' h' w' a'] is not lower than that of
    [t h w a]: neither in score nor in level. *)
Definition not_lower (t h w a t' h' w' a' : Q) : Prop :=
  (Risk.score (Risk.rules t h w a) <= Risk.score (Risk.rules t' h' w' a'))%Z /\
  (Risk.rank (Risk.level (Risk.assess t h w a)) <=
   Risk.rank (Risk.level (Risk.assess t' h' w' a')))%Z.

(** ** Vocabulary for the statements about the routes *)

(** A database is connected: Postgres is configured or SQLite was opened. *)
Definition connected (env : Api.Env) : bool :=
  Api.POSTGRES_URL env || Api.localDb env.

(** The answer [{ subscribed, autoNotify }] of [/subscription/:email]. *)
Definition status_json (subscribed autoNotify : bool) : Api.Response :=
  {| Api.status := 200;
     Api.body := Api.JObj [("subscribed", Api.JBool subscribed);
                           ("autoNotify", Api.JBool autoNotify)] |}.

(** The answer of a successful [/unsubscribe]. *)
Definition unsubscribed_json : Api.Response :=
  {| Api.status := 200;
     Api.body := Api.JObj [("success", Api.JBool true);
                           ("message", Api.JStr "Unsubscribed successfully")] |}.

(** The answer of [/notify] to a missing or malformed address. *)
Definition invalid_email_json : Api.Response :=
  {| Api.status := 400;
     Api.body := Api.JObj
       [("error", Api.JStr "Please provide a valid email address.")] |}.

(** The answer of [/notify] when no mail provider is configured. *)
Definition simulated_json : Api.Response :=
  {| Api.status := 200;
     Api.body := Api.JObj
       [("success", Api.JBool true);
        ("message", Api.JStr "Notification simulated (RESEND_API_KEY missing)");
        ("simulated", Api.JBool true)] |}.

(** Lower-casing of the ASCII letters of an address: the normalisation the
    specification speaks of.  Nothing in [src/api.ts] calls it. *)
Definition lower (c : ascii) : ascii :=
  let n := nat_of_ascii c in
  if ((65 <=? n)%nat && (n <=? 90)%nat)%bool then ascii_of_nat (n + 32) else c.

Fixpoint lowercase (s : string) : string :=
  match s with
  | EmptyString => EmptyString
  | String c s' => String (lower c) (lowercase s')
  end.

(** A world with no subscription, no statement executed, no mail sent. *)
Definition fresh : Api.World :=
  {| Api.subscriptions := ∅; Api.executed := []; Api.dispatched := [] |}.

(** A deployment on local SQLite without mail provider, and one in which
    neither database is available. *)
Definition sqlite_env : Api.Env :=
  {| Api.POSTGRES_URL := false; Api.localDb := true; Api.resend := None;
     Api.EMAIL_FROM := None; Api.CURRENT_TIMESTAMP := 0;
     Api.db_down := fun _ => false |}.

Definition mock_env : Api.Env :=
  {| Api.POSTGRES_URL := false; Api.localDb := false; Api.resend := None;
     Api.EMAIL_FROM := None; Api.CURRENT_TIMESTAMP := 0;
     Api.db_down := fun _ => false |}.

(** A deployment on Postgres without mail provider. *)
Definition postgres_env : Api.Env :=
  {| Api.POSTGRES_URL := true; Api.localDb := false; Api.resend := None;
     Api.EMAIL_FROM := None; Api.CURRENT_TIMESTAMP := 0;
     Api.db_down := fun _ => false |}.

(** An address that matches [emailRegex] and holds the code unit 0. *)
Definition nul_address : string := String "a" (String Ascii.zero "@b.co").

(** The database fails no statement for a reason of its own. *)
Definition always_up (env : Api.Env) : Prop :=
  forall n, Api.db_down env n = false.

(** The address can be a key of the table: any address on SQLite, and on
    Postgres one without the code unit 0 and of at most 255 characters. *)
Definition storable (env : Api.Env) (e : string) : bool :=
  negb (Api.POSTGRES_URL env)
  || (negb (Api.has_nul e) && (String.length e <=? 255)%nat).

(** A statement sent to the database: the table stays, the log grows. *)
Definition sent (q : Api.Statement) (w : Api.World) : Api.World :=
  {| Api.subscriptions := Api.subscriptions w;
     Api.executed := Api.executed w ++ [q];
     Api.dispatched := Api.dispatched w |}.

(** The answers of the [catch] blocks of [/unsubscribe] and
    [/subscription/:email]. *)
Definition database_error_json : Api.Response :=
  {| Api.status := 500;
     Api.body := Api.JObj [("error", Api.JStr "Database error")] |}.

Definition unavailable_json : Api.Response :=
  {| Api.status := 200;
     Api.body := Api.JObj [("subscribed", Api.JBool false);
                           ("autoNotify", Api.JBool false);
                           ("error", Api.JStr "Database unavailable")] |}.

(** A [/notify] request that asks to save the subscription. *)
Definition subscribe_request (addr : string) (flag : bool) : Api.NotifyBody :=
  {| Api.message := "<p>alert</p>"; Api.nb_subject := "[AsthmaGuard] alert";
     Api.toEmail := Some addr; Api.saveEmail := true; Api.autoNotify := flag |}.

(** ** What the pattern means

    The strings a regular expression denotes, to measure [Api.test]
    against, and the shape [emailRegex] asks of each of the three parts of an
    address. *)

Inductive matches : Api.regex -> string -> Prop :=
  | MEps : matches Api.Eps ""
  | MAtom a c : Api.atom_has a c = true -> matches (Api.Atom a) (String c "")
  | MSeq r1 r2 s1 s2 :
      matches r1 s1 -> matches r2 s2 -> matches (Api.Seq r1 r2) (s1 ++ s2)
  | MAltL r1 r2 s : matches r1 s -> matches (Api.Alt r1 r2) s
  | MAltR r1 r2 s : matches r2 s -> matches (Api.Alt r1 r2) s
  | MStar0 r : matches (Api.Star r) ""
  | MStarS r s1 s2 :
      matches r s1 -> matches (Api.Star r) s2 -> matches (Api.Star r) (s1 ++ s2).

(** Every code unit is neither white space nor [@]. *)
Fixpoint plain (s : string) : bool :=
  match s with
  | EmptyString => true
  | String c s' => Api.atom_has Api.not_space_at c && plain s'
  end.

(** A non-empty run of such code units. *)
Definition part (s : string) : Prop := s <> "" /\ plain s = true.

(** * The router as a whole

    The three subscription routes mounted on [api], as one handler over the
    requests they serve, and a run of the server over a sequence of
    requests. *)

Inductive Request :=
  | GetSubscription (email : string)
  | PostUnsubscribe (email : string)
  | PostNotify (body : Api.NotifyBody).

Definition handle (env : Api.Env) (r : Request) : Api.M Api.Response :=
  match r with
  | GetSubscription email => Api.get_subscription env email
  | PostUnsubscribe email => Api.post_unsubscribe env email
  | PostNotify body => Api.post_notify env body
  end.

Fixpoint serve (env : Api.Env) (rs : list Request) : Api.M (list Api.Response) :=
  match rs with
  | [] => Api.ret []
  | r :: rs' =>
      Api.bind (handle env r) (fun a =>
      Api.bind (serve env rs') (fun answers =>
      Api.ret (a :: answers)))
  end.

(** The address a request names, if it names one. *)
Definition address_of (r : Request) : option string :=
  match r with
  | GetSubscription email => Some email
  | PostUnsubscribe email => Some email
  | PostNotify body => Api.toEmail body
  end.

(** The mail [/notify] builds for an accepted request. *)
Definition mail_of (env : Api.Env) (req : Api.NotifyBody) (addr : string)
  : Api.Email :=
  {| Api.from := Api.or_else (Api.EMAIL_FROM env)
                   "AsthmaGuard <onboarding@resend.dev>";
     Api.to := [addr];
     Api.subject := Api.nb_subject req;
     Api.html := Api.message req |}.

(** The answer [{ error }] under a status code. *)
Definition error_json (code : Z) (msg : string) : Api.Response :=
  {| Api.status := code; Api.body := Api.JObj [("error", Api.JStr msg)] |}.

(** No row of the table has [last_notified_at] set. *)
Definition never_notified (t : gmap string Api.Row) : Prop :=
  map_Forall (fun _ r => Api.last_notified_at r = None) t.

(** How often a code unit occurs in a string. *)
Fixpoint occurrences (c : ascii) (s : string) : nat :=
  match s with
  | EmptyString => 0
  | String d s' => (if Ascii.eqb c d then 1 else 0) + occurrences c s'
  end.

(** Whether some code unit of a string is white space. *)
Fixpoint has_space (s : string) : bool :=
  match s with
  | EmptyString => false
  | String c s' => Api.is_space c || has_space s'
  end.

(** The address a statement is about. *)
Definition statement_address (q : Api.Statement) : string :=
  match q with
  | Api.Select e => e
  | Api.Upsert e _ => e
  | Api.Delete e => e
  end.

(** A deployment on local SQLite whose mail provider answers every mail the
    same way. *)
Definition mail_env (answer : Api.SendOutcome) : Api.Env :=
  {| Api.POSTGRES_URL := false; Api.localDb := true;
     Api.resend := Some (fun _ => answer);
     Api.EMAIL_FROM := None; Api.CURRENT_TIMESTAMP := 0;
     Api.db_down := fun _ => false |}.

(** Whether a [/notify] request gets as far as writing to the table. *)
Definition saves (env : Api.Env) (req : Api.NotifyBody) (e : string) : bool :=
  Api.test Api.emailRegex e && Api.saveEmail req && connected env.


(** A world whose table holds one record, of "a@b.co", created at time 7. *)
Definition one_record : Api.World :=
  {| Api.subscriptions :=
       {[ "a@b.co" := {| Api.auto_notify := true;
                         Api.last_notified_at := None;
                         Api.created_at := 7 |} ]};
     Api.executed := []; Api.dispatched := [] |}.

(** The mail a run of the server may send for a request: the one [/notify]
    builds, for a request whose address matches [emailRegex]. *)
Definition mail_for (env : Api.Env) (rs : list Request) (m : Api.Email) : Prop :=
  exists req e,
    In (PostNotify req) rs /\ Api.toEmail req = Some e /\
    Api.test Api.emailRegex e = true /\ m = mail_of env req e.

(** Whether a [/notify] request writes its record: it gets as far as the
    upsert and the database executes it. *)
Definition writes (env : Api.Env) (req : Api.NotifyBody) (e : string)
  (w : Api.World) : bool :=
  saves env req e
  && negb (Api.throws env (Api.Upsert e (Api.autoNotify req)) w).

(** Whether an [/unsubscribe] deletes: a database is connected and executes
    the DELETE. *)
Definition removes (env : Api.Env) (e : string) (w : Api.World) : bool :=
  connected env && negb (Api.throws env (Api.Delete e) w).

(** * The e-mail template of [src/email-template.ts] *)

Module Template.

(** The double-quote character of the style attributes. *)
Definition dq : string := String "034"%char "".

(** [list.join(sep)] *)
Fixpoint join (sep : string) (l : list string) : string :=
  match l with
  | [] => ""
  | [x] => x
  | x :: rest => x ++ sep ++ join sep rest
  end.

Record EmailTemplateProps := {
  locationName : string;
  riskLevel : string;
  riskBgColor : string;
  triggers : list string;
  advice : list string
}.

(** The local [bgColor]: the page colour for the given badge class. *)
Definition bgColor (riskBgColor : string) : string :=
  if String.eqb riskBgColor "bg-rose-50" then "#fff1f2"
  else if String.eqb riskBgColor "bg-orange-50" then "#fff7ed"
  else "#f0fdf4".

(** One item of the list of precautions. *)
Definition li (a : string) : string :=
  "<li style=" ++ dq ++ "margin-bottom: 12px;" ++ dq ++ ">" ++ a ++ "</li>".

(** The fixed text of the template, between its placeholders. *)

Definition html_0 : string :=
  "
    <div style=" ++ dq ++
  "font-family: 'Helvetica Neue', Helvetica, Arial, sans-serif; max-width: 600px; margin: 0 auto; border: 1px solid #e2e8f0; border-radius: 16px; overflow: hidden; background-color: #ffffff;" ++ dq ++
  ">
      <div style=" ++ dq ++
  "background-color: #4f46e5; padding: 32px; text-align: center;" ++ dq ++
  ">
        <h1 style=" ++ dq ++
  "color: #ffffff; margin: 0; font-size: 24px; letter-spacing: -0.02em;" ++ dq ++
  ">AsthmaGuard Alert</h1>
      </div>
      <div style=" ++ dq ++
  "padding: 32px;" ++ dq ++
  ">
        <p style=" ++ dq ++
  "font-size: 18px; color: #1e293b; margin-bottom: 24px;" ++ dq ++
  ">Hello, we've detected environmental conditions in <strong>".

Definition html_1 : string :=
  "</strong> that may affect your breathing.</p>
        
        <div style=" ++ dq ++
  "background-color: ".

Definition html_2 : string :=
  "; border-radius: 12px; padding: 24px; margin-bottom: 32px;" ++ dq ++
  ">
          <h2 style=" ++ dq ++
  "margin: 0 0 8px 0; font-size: 20px; color: #0f172a;" ++ dq ++
  ">Risk Level: ".

Definition html_3 : string :=
  "</h2>
          <p style=" ++ dq ++
  "margin: 0; color: #475569; font-size: 14px;" ++ dq ++
  "><strong>Triggers Detected:</strong> ".

Definition html_4 : string :=
  "</p>
        </div>

        <h3 style=" ++ dq ++
  "font-size: 16px; color: #0f172a; margin-bottom: 16px; text-transform: uppercase; letter-spacing: 0.05em;" ++ dq ++
  ">Precautions to Take</h3>
        <ul style=" ++ dq ++
  "padding-left: 20px; color: #334155; line-height: 1.6;" ++ dq ++
  ">
          ".

Definition html_5 : string :=
  "
        </ul>

        <div style=" ++ dq ++
  "background-color: #f8fafc; border-radius: 12px; padding: 20px; margin-top: 32px;" ++ dq ++
  ">
          <p style=" ++ dq ++
  "margin: 0; font-size: 14px; color: #64748b; font-style: italic;" ++ dq ++
  ">
            " ++ dq ++
  "Your health is our priority. Stay safe, stay prepared, and breathe easy." ++ dq ++
  "
          </p>
        </div>

        <div style=" ++ dq ++
  "margin-top: 40px; padding-top: 24px; border-top: 1px solid #f1f5f9; text-align: center;" ++ dq ++
  ">
          <p style=" ++ dq ++
  "font-size: 12px; color: #94a3b8; margin: 0;" ++ dq ++
  ">This is an automated health alert from AsthmaGuard.</p>
          <p style=" ++ dq ++
  "font-size: 11px; color: #cbd5e1; margin-top: 8px;" ++ dq ++
  ">To opt out of future alerts, please visit the app settings.</p>
        </div>
      </div>
    </div>
  ".

Definition generateEmailHtml (p : EmailTemplateProps) : string :=
  html_0 ++ locationName p ++
  html_1 ++ bgColor (riskBgColor p) ++
  html_2 ++ riskLevel p ++
  html_3 ++ join ", " (triggers p) ++
  html_4 ++ join "" (map li (advice p)) ++
  html_5.

End Template.

(** * The front end: state and handlers of [App] *)

Module App.

(** One entry of [data.forecast.list], as far as [chartData] reads it. *)
Record ForecastItem := {
  dt : Q;
  main_temp : Q;
  main_humidity : Q
}.

(** The weather payload held in [data]: the readings [risk] uses, the name
    of the place and the forecast. *)
Record Data := {
  weather : Risk.WeatherData;
  current_name : string;
  forecast_list : list ForecastItem
}.

Record AqiLevel := { label : string; color : string; bg : string }.

Definition AQI_LEVELS : list AqiLevel :=
  [ {| label := "Good"; color := "text-emerald-500"; bg := "bg-emerald-50" |};
    {| label := "Fair"; color := "text-amber-500"; bg := "bg-amber-50" |};
    {| label := "Moderate"; color := "text-orange-500"; bg := "bg-orange-50" |};
    {| label := "Poor"; color := "text-rose-500"; bg := "bg-rose-50" |};
    {| label := "Very Poor"; color := "text-purple-500"; bg := "bg-purple-50" |} ].

(** [array[i]] for a number [i]: the element when [i] is a whole number
    within the array, [undefined] otherwise. *)
Definition at_index {A} (l : list A) (i : Q) : option A :=
  let r := Qred i in
  if (Qden r =? 1)%positive && (0 <=? Qnum r)%Z
  then nth_error l (Z.to_nat (Qnum r))
  else None.

(** The label next to the AQI figure:
    [data ? AQI_LEVELS[(data.aqi.list[0]?.main.aqi || 1) - 1].label : ""].
    [None] stands for the [TypeError] of reading [label] off [undefined]. *)
Definition aqi_label (data : option Data) : option string :=
  match data with
  | None => Some ""
  | Some d =>
      match at_index AQI_LEVELS (Risk.aqi_of (weather d) - 1)%Q with
      | Some entry => Some (label entry)
      | None => None
      end
  end.

(** The text of a level, as the union type of [RiskAssessment] spells it. *)
Definition level_name (l : Risk.Level) : string :=
  match l with
  | Risk.Low => "Low"
  | Risk.Moderate => "Moderate"
  | Risk.High => "High"
  | Risk.Extreme => "Extreme"
  end.

Inductive Kind := success | error.

Record Notification := { show : bool; msg : string; type : Kind }.

(** The state of the component that the handlers read and set. *)
Record State := {
  data : option Data;
  email : string;
  sendingEmail : bool;
  autoNotify : bool;
  isSubscribed : bool;
  showNotification : option Notification;
  lastAlertTime : option Z
}.

(** The [risk] memo over the current [data]. *)
Definition risk (st : State) : Risk.RiskAssessment :=
  Risk.risk (option_map weather (data st)).

(** [validateEmail], with the same pattern as the server. *)
Definition validateEmail (emailAddr : string) : bool :=
  Api.test Api.emailRegex emailAddr.

(** [Math.round]: the nearest whole number, halves going up. *)
Definition Math_round (x : Q) : Z := Qfloor (x + (1 # 2))%Q.

Record ChartPoint := { time : string; temp : Z; humidity : Q }.

(** [chartData]; [clock] stands for the locale-dependent
    [new Date(ms).toLocaleTimeString([], ...)]. *)
Definition chartData (clock : Q -> string) (st : State) : list ChartPoint :=
  match data st with
  | None => []
  | Some d =>
      map (fun item =>
             {| time := clock (dt item * 1000)%Q;
                temp := Math_round (main_temp item);
                humidity := main_humidity item |})
          (firstn 8 (forecast_list d))
  end.

(** ** Reading the answers of the server *)

(** [obj.name] on a parsed answer. *)
Definition field (name : string) (j : Api.Json) : option Api.Json :=
  match j with
  | Api.JObj fields =>
      match find (fun kv => String.eqb (fst kv) name) fields with
      | Some kv => Some (snd kv)
      | None => None
      end
  | _ => None
  end.

(** Truthiness of a value that may be [undefined]. *)
Definition truthy (v : option Api.Json) : bool :=
  match v with
  | None => false
  | Some (Api.JBool b) => b
  | Some (Api.JStr s) => negb (String.eqb s "")
  | Some (Api.JObj _) => true
  end.

(** [response.ok] *)
Definition ok (r : Api.Response) : bool :=
  (200 <=? Api.status r)%Z && (Api.status r <=? 299)%Z.

(** [getErrorMessage]: [errorData?.error || fallback], as the text it has
    in the [Error] thrown with it.  Every answer of the server is JSON, so
    the [catch] around [response.json()] is never entered. *)
Definition getErrorMessage (r : Api.Response) (fallback : string) : string :=
  match field "error" (Api.body r) with
  | Some (Api.JStr s) => if String.eqb s "" then fallback else s
  | Some (Api.JBool true) => "true"
  | Some (Api.JBool false) => fallback
  | Some (Api.JObj _) => "[object Object]"
  | None => fallback
  end.

Definition notify (st : State) (m : string) (k : Kind) : State :=
  {| data := data st; email := email st; sendingEmail := sendingEmail st;
     autoNotify := autoNotify st; isSubscribed := isSubscribed st;
     showNotification := Some {| show := true; msg := m; type := k |};
     lastAlertTime := lastAlertTime st |}.

(** The request [handleNotify] posts to [/api/notify]. *)
Definition alert_request (st : State) (d : Data) : Api.NotifyBody :=
  let r := risk st in
  {| Api.message :=
       Template.generateEmailHtml
         {| Template.locationName := current_name d;
            Template.riskLevel := level_name (Risk.level r);
            Template.riskBgColor := Risk.bgColor r;
            Template.triggers := Risk.triggers r;
            Template.advice := Risk.advice r |};
     Api.nb_subject :=
       "[AsthmaGuard] " ++ level_name (Risk.level r) ++ " Risk Alert for "
       ++ current_name d;
     Api.toEmail := Some (email st);
     Api.saveEmail := true;
     Api.autoNotify := autoNotify st |}.

(** [handleNotify]; [fetch] reaches the server, [now] is [new Date()].  The
    timers that clear the notification after five seconds are left out. *)
Definition handleNotify (env : Api.Env) (now : Z) (st : State) : Api.M State :=
  if String.eqb (email st) "" || negb (validateEmail (email st)) then
    Api.ret (notify st "Please enter a valid email address." error)
  else
    match data st with
    | None => Api.ret st
    | Some d =>
        Api.bind (Api.post_notify env (alert_request st d)) (fun response =>
        Api.ret
          (if ok response then
             {| data := data st; email := email st; sendingEmail := false;
                autoNotify := autoNotify st; isSubscribed := true;
                showNotification :=
                  Some {| show := true;
                          msg := if truthy (field "simulated" (Api.body response))
                                 then "Alert simulated (Check server logs)"
                                 else "Alert sent successfully!";
                          type := success |};
                lastAlertTime := Some now |}
           else
             {| data := data st; email := email st; sendingEmail := false;
                autoNotify := autoNotify st; isSubscribed := isSubscribed st;
                showNotification :=
                  Some {| show := true;
                          msg := getErrorMessage response "Failed to send alert";
                          type := error |};
                lastAlertTime := lastAlertTime st |}))
    end.

(** [handleUnsubscribe] *)
Definition handleUnsubscribe (env : Api.Env) (st : State) : Api.M State :=
  if String.eqb (email st) "" || negb (validateEmail (email st)) then
    Api.ret st
  else
    Api.bind (Api.post_unsubscribe env (email st)) (fun response =>
    Api.ret
      (if ok response then
         {| data := data st; email := email st; sendingEmail := sendingEmail st;
            autoNotify := autoNotify st; isSubscribed := false;
            showNotification :=
              Some {| show := true; msg := "You have been unsubscribed.";
                      type := success |};
            lastAlertTime := lastAlertTime st |}
       else notify st (getErrorMessage response "Failed to unsubscribe") error)).

(** [checkSubscription]; the address travels in the path of the request,
    encoded by [encodeURIComponent] and decoded again by the router. *)
Definition checkSubscription (env : Api.Env) (emailAddr : string) (st : State)
  : Api.M State :=
  if negb (Api.includes emailAddr "@") then Api.ret st
  else
    Api.bind (Api.get_subscription env emailAddr) (fun response =>
    Api.ret
      (if ok response then
         {| data := data st; email := email st; sendingEmail := sendingEmail st;
            autoNotify := truthy (field "autoNotify" (Api.body response));
            isSubscribed := truthy (field "subscribed" (Api.body response));
            showNotification := showNotification st;
            lastAlertTime := lastAlertTime st |}
       else st)).

(** The [onChange] of the address field. *)
Definition onEmailChange (env : Api.Env) (value : string) (st : State)
  : Api.M State :=
  let st' :=
    {| data := data st; email := value; sendingEmail := sendingEmail st;
       autoNotify := autoNotify st; isSubscribed := isSubscribed st;
       showNotification := showNotification st;
       lastAlertTime := lastAlertTime st |} in
  if validateEmail value then checkSubscription env value st'
  else Api.ret st'.

(** The [disabled] attribute of the button that sends the alert. *)
Definition send_disabled (st : State) : bool :=
  sendingEmail st
  || match Risk.level (risk st) with Risk.Low => true | _ => false end
  || String.eqb (email st) "".

(** A click on that button: [handleNotify], unless the button is disabled. *)
Definition click_send (env : Api.Env) (now : Z) (st : State) : Api.M State :=
  if send_disabled st then Api.ret st else handleNotify env now st.

End App.

(** A component state with a cold, humid, windy, polluted payload and one
    with a mild one, both with the address "a@b.co" typed. *)
Definition harsh_data : App.Data :=
  {| App.weather := reading 5 80 12 4; App.current_name := "Oslo";
     App.forecast_list := [] |}.

Definition mild_data : App.Data :=
  {| App.weather := reading 20 50 3 1; App.current_name := "Nice";
     App.forecast_list := [] |}.

Definition typed (d : option App.Data) (addr : string) : App.State :=
  {| App.data := d; App.email := addr; App.sendingEmail := false;
     App.autoNotify := true; App.isSubscribed := false;
     App.showNotification := None; App.lastAlertTime := None |}.

(** A payload whose forecast has ten entries. *)
Definition ten_day_data : App.Data :=
  {| App.weather := reading 20 50 3 1; App.current_name := "Nice";
     App.forecast_list :=
       map (fun n => {| App.dt := inject_Z n; App.main_temp := 18.5;
                        App.main_humidity := 45 |})
           [0; 1; 2; 3; 4; 5; 6; 7; 8; 9]%Z |}.

(** A reading is one of the five whole values of the index. *)
Definition whole_index (a : Q) : Prop :=
  (a == 1 \/ a == 2 \/ a == 3 \/ a == 4 \/ a == 5)%Q.

(** * The weather routes of [src/api.ts] *)

Module Weather.

(** What is known of an error thrown by [axios.get], or by the handler
    itself: [error.response?.status] and [error.response?.data?.message]. *)
Record AxiosError := {
  response_status : option Z;
  response_data_message : option string
}.

(** An error without [response]: a network failure, or a [TypeError]. *)
Definition no_response : AxiosError :=
  {| response_status := None; response_data_message := None |}.

Section Routes.

(** The payloads of the weather provider are passed on as they come.  All
    the routes read of one is [data.coord], whose [lat] and [lon] they put
    into request addresses: [coord] gives the two as the template literal
    renders them, and [None] when [data.coord] is missing. *)
Context {Payload : Type} (coord : Payload -> option (string * string)).

Inductive Outcome :=
  | Resolved (data : Payload)
  | Rejected (e : AxiosError).

(** The environment of the routes: [process.env.OPENWEATHER_API_KEY], the
    provider as what it answers to each address, the order in which
    concurrent requests settle (which of several failing ones fails first),
    and [Date.now()] at each of its calls. *)
Record Env := {
  OPENWEATHER_API_KEY : option string;
  axios_get : string -> Outcome;
  race : nat;
  Date_now : nat -> Q
}.

Inductive Body :=
  | Live (current forecast aqi : Payload)
  | Demo (data : App.Data)
  | Error (message : string).

Record Answer := { code : Z; body : Body }.

(** Handlers thread the list of the addresses requested so far. *)
Definition W (A : Type) : Type := list string -> A * list string.

Definition get (env : Env) (url : string) : W Outcome :=
  fun log => (axios_get env url, (log ++ [url])%list).

Definition weather_url (lat lon key : string) : string :=
  "https://api.openweathermap.org/data/2.5/weather?lat=" ++ lat ++ "&lon="
  ++ lon ++ "&appid=" ++ key ++ "&units=metric".

Definition forecast_url (lat lon key : string) : string :=
  "https://api.openweathermap.org/data/2.5/forecast?lat=" ++ lat ++ "&lon="
  ++ lon ++ "&appid=" ++ key ++ "&units=metric".

Definition air_pollution_url (lat lon key : string) : string :=
  "https://api.openweathermap.org/data/2.5/air_pollution?lat=" ++ lat
  ++ "&lon=" ++ lon ++ "&appid=" ++ key.

Definition city_url (q key : string) : string :=
  "https://api.openweathermap.org/data/2.5/weather?q=" ++ q ++ "&appid="
  ++ key ++ "&units=metric".

(** The errors of the requests that failed, in the order of the requests. *)
Fixpoint failures (os : list Outcome) : list AxiosError :=
  match os with
  | [] => []
  | Resolved _ :: rest => failures rest
  | Rejected e :: rest => e :: failures rest
  end.

(** The error [Promise.all] rejects with: that of the request that fails
    first. *)
Definition first_rejection (env : Env) (os : list Outcome) : AxiosError :=
  let fs := failures os in
  nth (race env mod length fs) fs no_response.

(** The answer of a [catch] block:
    [res.status(error.response?.status || fallback)
        .json({ error: error.response?.data?.message || text })]. *)
Definition failed (fallback : Z) (text : string) (e : AxiosError) : Answer :=
  {| code := match response_status e with
             | Some s => if (s =? 0)%Z then fallback else s
             | None => fallback
             end;
     body := Error (Api.or_else (response_data_message e) text) |}.

(** A query parameter or key that is missing or empty is falsy. *)
Definition present (s : option string) : option string :=
  match s with
  | None | Some "" => None
  | Some v => Some v
  end.

(** The mock payload sent when no API key is configured. *)
Definition demo (env : Env) : App.Data :=
  {| App.weather :=
       {| Risk.current_main_temp := 18; Risk.current_main_humidity := 45;
          Risk.current_wind_speed := 3.2; Risk.aqi_list := [1%Q] |};
     App.current_name := "Demo City (No API Key)";
     App.forecast_list :=
       map (fun i =>
              {| App.dt := Date_now env i / 1000 + inject_Z (Z.of_nat i) * 86400;
                 App.main_temp := 18 + inject_Z (Z.of_nat i);
                 App.main_humidity := 45 |})
           (seq 0 5) |}.

(** [api.get("/weather")] *)
Definition get_weather (env : Env) (lat lon : option string) : W Answer :=
  match present lat, present lon with
  | Some lat, Some lon =>
      match present (OPENWEATHER_API_KEY env) with
      | Some apiKey =>
          fun log =>
            let (weatherRes, log1) := get env (weather_url lat lon apiKey) log in
            let (forecastRes, log2) := get env (forecast_url lat lon apiKey) log1 in
            let (aqiRes, log3) := get env (air_pollution_url lat lon apiKey) log2 in
            (match weatherRes, forecastRes, aqiRes with
             | Resolved current, Resolved forecast, Resolved aqi =>
                 {| code := 200; body := Live current forecast aqi |}
             | _, _, _ =>
                 failed 500 "Failed to fetch weather data"
                   (first_rejection env [weatherRes; forecastRes; aqiRes])
             end, log3)
      | None => fun log => ({| code := 200; body := Demo (demo env) |}, log)
      end
  | _, _ =>
      fun log =>
        ({| code := 400; body := Error "Latitude and longitude are required" |},
         log)
  end.

(** [api.get("/weather/search")] *)
Definition get_weather_search (env : Env) (q : option string) : W Answer :=
  match present q with
  | None => fun log => ({| code := 400; body := Error "City name is required" |}, log)
  | Some q =>
      match present (OPENWEATHER_API_KEY env) with
      | None =>
          fun log =>
            ({| code := 400;
                body := Error "Search requires an OpenWeather API Key" |}, log)
      | Some apiKey =>
          fun log =>
            let (response, log1) := get env (city_url q apiKey) log in
            match response with
            | Rejected e => (failed 404 "City not found" e, log1)
            | Resolved current =>
                match coord current with
                | None => (failed 404 "City not found" no_response, log1)
                | Some (lat, lon) =>
                    let (forecastRes, log2) :=
                      get env (forecast_url lat lon apiKey) log1 in
                    let (aqiRes, log3) :=
                      get env (air_pollution_url lat lon apiKey) log2 in
                    (match forecastRes, aqiRes with
                     | Resolved forecast, Resolved aqi =>
                         {| code := 200; body := Live current forecast aqi |}
                     | _, _ =>
                         failed 404 "City not found"
                           (first_rejection env [forecastRes; aqiRes])
                     end, log3)
                end
            end
      end
  end.

End Routes.

End Weather.

(** A provider that answers every request with the same payload, a text,
    and one that refuses every request with status 401; the coordinates
    read off any payload are those of Oslo. *)
Definition oslo (p : string) : option (string * string) := Some ("59.91", "10.75").

Definition provider_env (key : option string)
  (answer : string -> @Weather.Outcome string) : @Weather.Env string :=
  {| Weather.OPENWEATHER_API_KEY := key; Weather.axios_get := answer;
     Weather.race := 0; Weather.Date_now := fun _ => 0%Q |}.

Definition unauthorized : Weather.AxiosError :=
  {| Weather.response_status := Some 401%Z;
     Weather.response_data_message := Some "Invalid API key" |}.

(** * Facts about the comparison operators *)

Lemma Qltb_lt (x y : Q) : Qltb x y = true <-> (x < y)%Q.
Proof.
  unfold Qltb. rewrite negb_true_iff. split.
  - intros H. apply Qnot_le_lt. intros Hle.
    apply Qle_bool_iff in Hle. congruence.
  - intros H. destruct (Qle_bool y x) eqn:E; [|reflexivity].
    apply Qle_bool_iff in E. exfalso. exact (Qlt_not_le _ _ H E).
Qed.

Lemma Qltb_ge (x y : Q) : Qltb x y = false <-> (y <= x)%Q.
Proof.
  unfold Qltb. rewrite negb_false_iff. apply Qle_bool_iff.
Qed.

Lemma Qgtb_gt (x y : Q) : Qgtb x y = true <-> (y < x)%Q.
Proof. apply Qltb_lt. Qed.

Lemma Qgtb_le (x y : Q) : Qgtb x y = false <-> (x <= y)%Q.
Proof. apply Qltb_ge. Qed.

Lemma Qgeb_ge (x y : Q) : Qgeb x y = true <-> (y <= x)%Q.
Proof. apply Qle_bool_iff. Qed.

Lemma Qgeb_lt (x y : Q) : Qgeb x y = false <-> (x < y)%Q.
Proof.
  unfold Qgeb. split.
  - intros H. apply Qnot_le_lt. intros Hle.
    apply Qle_bool_iff in Hle. congruence.
  - intros H. destruct (Qle_bool y x) eqn:E; [|reflexivity].
    apply Qle_bool_iff in E. exfalso. exact (Qlt_not_le _ _ H E).
Qed.

(** Turns every boolean comparison in the context into the order fact it
    stands for, ready for [lra]. *)
Ltac Qorder :=
  repeat match goal with
  | H : Qltb _ _ = true |- _ => apply Qltb_lt in H
  | H : Qltb _ _ = false |- _ => apply Qltb_ge in H
  | H : Qgtb _ _ = true |- _ => apply Qgtb_gt in H
  | H : Qgtb _ _ = false |- _ => apply Qgtb_le in H
  | H : Qgeb _ _ = true |- _ => apply Qgeb_ge in H
  | H : Qgeb _ _ = false |- _ => apply Qgeb_lt in H
  | H : Qeq_bool _ _ = true |- _ => apply Qeq_bool_iff in H
  | H : Qeq_bool _ _ = false |- _ => apply Qeq_bool_neq in H
  end.

(** * Facts about the risk engine *)

Section RiskFacts.
Import Risk.

Lemma risk_some (d : WeatherData) :
  risk (Some d) =
  assess (current_main_temp d) (current_main_humidity d)
         (current_wind_speed d) (aqi_of d).
Proof. reflexivity. Qed.

(** ** Each rule against its group of rows *)

Lemma aqi_rule_rows (s : Table.Snapshot) (st : Locals) :
  aqi_rule (Table.airQualityIndex s) st =
  fold_left apply_entry (Table.first_match s Table.aqi_rows) st.
Proof.
  unfold aqi_rule, Table.first_match, Table.aqi_rows. cbn [find Table.condition].
  destruct (Qgeb (Table.airQualityIndex s) 4); [reflexivity|].
  destruct (Qgeb (Table.airQualityIndex s) 3); reflexivity.
Qed.

Lemma temp_rule_rows (s : Table.Snapshot) (st : Locals) :
  temp_rule (Table.temperatureC s) st =
  fold_left apply_entry (Table.first_match s Table.temperature_rows) st.
Proof.
  unfold temp_rule, Table.first_match, Table.temperature_rows.
  cbn [find Table.condition].
  destruct (Qltb (Table.temperatureC s) 10); [reflexivity|].
  destruct (Qgtb (Table.temperatureC s) 32); reflexivity.
Qed.

Lemma humidity_rule_rows (s : Table.Snapshot) (st : Locals) :
  humidity_rule (Table.humidityPct s) st =
  fold_left apply_entry (Table.first_match s Table.humidity_rows) st.
Proof.
  unfold humidity_rule, Table.first_match, Table.humidity_rows.
  cbn [find Table.condition].
  destruct (Qgtb (Table.humidityPct s) 75); reflexivity.
Qed.

Lemma wind_rule_rows (s : Table.Snapshot) (st : Locals) :
  wind_rule (Table.windSpeedMps s) st =
  fold_left apply_entry (Table.first_match s Table.wind_rows) st.
Proof.
  unfold wind_rule, Table.first_match, Table.wind_rows.
  cbn [find Table.condition].
  destruct (Qgtb (Table.windSpeedMps s) 10); reflexivity.
Qed.

(** The four statements together run through the matched rows. *)
Lemma rules_matched (s : Table.Snapshot) :
  rules (Table.temperatureC s) (Table.humidityPct s)
        (Table.windSpeedMps s) (Table.airQualityIndex s) =
  fold_left apply_entry (Table.matched s) init.
Proof.
  unfold rules, Table.matched, Table.table. cbn [map concat].
  rewrite !fold_left_app. cbn [fold_left].
  rewrite <- aqi_rule_rows, <- temp_rule_rows, <- humidity_rule_rows,
    <- wind_rule_rows.
  reflexivity.
Qed.

(** ** Running through any list of rows *)

Lemma score_fold (es : list Table.Entry) (st : Locals) :
  score (fold_left apply_entry es st) =
  (score st + fold_right Z.add 0 (map Table.delta es))%Z.
Proof.
  revert st. induction es as [|e es IH]; intros st; cbn [fold_left map fold_right].
  - lia.
  - rewrite IH. unfold apply_entry at 1, bump. cbn [score]. lia.
Qed.

Lemma triggers_fold (es : list Table.Entry) (st : Locals) :
  l_triggers (fold_left apply_entry es st) =
  (l_triggers st ++ map Table.label es)%list.
Proof.
  revert st. induction es as [|e es IH]; intros st; cbn [fold_left map].
  - symmetry. apply app_nil_r.
  - rewrite IH. unfold apply_entry at 1, bump. cbn [l_triggers].
    rewrite <- app_assoc. reflexivity.
Qed.

Lemma advice_fold (es : list Table.Entry) (st : Locals) :
  l_advice (fold_left apply_entry es st) =
  (l_advice st ++ map Table.text es)%list.
Proof.
  revert st. induction es as [|e es IH]; intros st; cbn [fold_left map].
  - symmetry. apply app_nil_r.
  - rewrite IH. unfold apply_entry at 1, bump. cbn [l_advice].
    rewrite <- app_assoc. reflexivity.
Qed.

(** ** The final chain of returns *)

Lemma level_conclude (st : Locals) :
  level (conclude st) = Table.level_of (score st).
Proof.
  unfold conclude, Table.level_of.
  rewrite !Z.geb_leb.
  destruct (5 <=? score st)%Z; [reflexivity|].
  destruct (3 <=? score st)%Z; [reflexivity|].
  destruct (1 <=? score st)%Z; reflexivity.
Qed.

Lemma triggers_conclude (st : Locals) :
  triggers (conclude st) =
  if (1 <=? score st)%Z then l_triggers st else ["None detected"].
Proof.
  unfold conclude. rewrite !Z.geb_leb.
  destruct (Z.leb_spec 5 (score st)), (Z.leb_spec 3 (score st)),
    (Z.leb_spec 1 (score st)); try reflexivity; lia.
Qed.

Lemma advice_conclude (st : Locals) :
  advice (conclude st) =
  if (1 <=? score st)%Z then l_advice st else [Table.stable_advice].
Proof.
  unfold conclude. rewrite !Z.geb_leb.
  destruct (Z.leb_spec 5 (score st)), (Z.leb_spec 3 (score st)),
    (Z.leb_spec 1 (score st)); try reflexivity; lia.
Qed.

(** ** The score as a sum of points *)

Lemma score_bump (n : Z) (t a : string) (st : Locals) :
  score (bump n t a st) = (score st + n)%Z.
Proof. reflexivity. Qed.

Lemma score_aqi_rule (a : Q) (st : Locals) :
  score (aqi_rule a st) = (score st + aqi_points a)%Z.
Proof.
  unfold aqi_rule, aqi_points.
  destruct (Qgeb a 4); [apply score_bump|].
  destruct (Qgeb a 3); [apply score_bump|lia].
Qed.

Lemma score_temp_rule (t : Q) (st : Locals) :
  score (temp_rule t st) = (score st + temp_points t)%Z.
Proof.
  unfold temp_rule, temp_points.
  destruct (Qltb t 10); [apply score_bump|].
  destruct (Qgtb t 32); [apply score_bump|lia].
Qed.

Lemma score_humidity_rule (h : Q) (st : Locals) :
  score (humidity_rule h st) = (score st + humidity_points h)%Z.
Proof.
  unfold humidity_rule, humidity_points.
  destruct (Qgtb h 75); [apply score_bump|lia].
Qed.

Lemma score_wind_rule (w : Q) (st : Locals) :
  score (wind_rule w st) = (score st + wind_points w)%Z.
Proof.
  unfold wind_rule, wind_points.
  destruct (Qgtb w 10); [apply score_bump|lia].
Qed.

Lemma score_rules (t h w a : Q) :
  score (rules t h w a) =
  (aqi_points a + temp_points t + humidity_points h + wind_points w)%Z.
Proof.
  unfold rules.
  rewrite score_wind_rule, score_humidity_rule, score_temp_rule,
    score_aqi_rule.
  reflexivity.
Qed.

Lemma aqi_points_range (a : Q) : (0 <= aqi_points a <= 3)%Z.
Proof. unfold aqi_points. destruct (Qgeb a 4), (Qgeb a 3); lia. Qed.

Lemma temp_points_range (t : Q) : (0 <= temp_points t <= 2)%Z.
Proof. unfold temp_points. destruct (Qltb t 10), (Qgtb t 32); lia. Qed.

Lemma humidity_points_range (h : Q) : (0 <= humidity_points h <= 2)%Z.
Proof. unfold humidity_points. destruct (Qgtb h 75); lia. Qed.

Lemma wind_points_range (w : Q) : (0 <= wind_points w <= 1)%Z.
Proof. unfold wind_points. destruct (Qgtb w 10); lia. Qed.

Lemma score_nonneg (t h w a : Q) : (0 <= score (rules t h w a))%Z.
Proof.
  rewrite score_rules.
  pose proof (aqi_points_range a). pose proof (temp_points_range t).
  pose proof (humidity_points_range h). pose proof (wind_points_range w).
  lia.
Qed.

(** ** The assessment in terms of the table *)

Lemma rules_snapshot (d : WeatherData) :
  rules (current_main_temp d) (current_main_humidity d)
        (current_wind_speed d) (aqi_of d) =
  fold_left apply_entry (Table.matched (Table.snapshot d)) init.
Proof. exact (rules_matched (Table.snapshot d)). Qed.

Lemma score_of_total (d : WeatherData) :
  score_of d = Table.total (Table.snapshot d).
Proof. unfold score_of. rewrite rules_snapshot, score_fold. reflexivity. Qed.

Lemma score_of_points (d : WeatherData) :
  score_of d =
  (aqi_points (aqi_of d) + temp_points (current_main_temp d) +
   humidity_points (current_main_humidity d) +
   wind_points (current_wind_speed d))%Z.
Proof. apply score_rules. Qed.

Lemma score_of_nonneg (d : WeatherData) : (0 <= score_of d)%Z.
Proof. apply score_nonneg. Qed.

Lemma level_risk (d : WeatherData) :
  level (risk (Some d)) = Table.level_of (score_of d).
Proof. rewrite risk_some. unfold assess. apply level_conclude. Qed.

Lemma triggers_risk (d : WeatherData) :
  triggers (risk (Some d)) =
  if (score_of d =? 0)%Z then ["None detected"]
  else map Table.label (Table.matched (Table.snapshot d)).
Proof.
  rewrite risk_some. unfold assess. rewrite triggers_conclude.
  fold (score_of d). pose proof (score_of_nonneg d).
  rewrite rules_snapshot, triggers_fold. cbn [init l_triggers app].
  destruct (Z.leb_spec 1 (score_of d)), (Z.eqb_spec (score_of d) 0);
    try reflexivity; lia.
Qed.

Lemma advice_risk (d : WeatherData) :
  advice (risk (Some d)) =
  if (score_of d =? 0)%Z then [Table.stable_advice]
  else map Table.text (Table.matched (Table.snapshot d)).
Proof.
  rewrite risk_some. unfold assess. rewrite advice_conclude.
  fold (score_of d). pose proof (score_of_nonneg d).
  rewrite rules_snapshot, advice_fold. cbn [init l_advice app].
  destruct (Z.leb_spec 1 (score_of d)), (Z.eqb_spec (score_of d) 0);
    try reflexivity; lia.
Qed.

(** C1. For every weather payload, the assessment is the one the scoring
    table prescribes for its snapshot: the score is the sum of the deltas of
    the matched rows (AQI >= 4 adds 3, else AQI >= 3 adds 2; temperature < 10
    adds 2, else temperature > 32 adds 1; humidity > 75 adds 2; wind > 10
    adds 1), triggers and advice are the labels and texts of the matched rows
    in table order, the level is Extreme from 5, High from 3, Moderate from
    1, and at score 0 it is Low with the single stable-conditions advice and
    the trigger "None detected". *)
Theorem risk_follows_table (d : WeatherData) :
  let s := Table.snapshot d in
  let r := risk (Some d) in
  score_of d = Table.total s /\
  level r = Table.level_of (Table.total s) /\
  triggers r = Table.triggers_of s /\
  advice r = Table.advice_of s.
Proof.
  intros s r. subst s r.
  unfold Table.triggers_of, Table.advice_of.
  rewrite level_risk, triggers_risk, advice_risk, <- score_of_total.
  repeat split; reflexivity.
Qed.

(** The worked examples of the specification. *)

Example example_extreme :
  let d := {| current_main_temp := 5; current_main_humidity := 80;
              current_wind_speed := 12; aqi_list := [4%Q] |} in
  score_of d = 8%Z /\
  level (risk (Some d)) = Extreme /\
  triggers (risk (Some d)) =
    ["Poor Air Quality"; "Cold Air"; "High Humidity"; "High Wind (Allergens)"].
Proof. vm_compute. repeat split; reflexivity. Qed.

Example example_low :
  let d := {| current_main_temp := 20; current_main_humidity := 50;
              current_wind_speed := 3; aqi_list := [1%Q] |} in
  score_of d = 0%Z /\ level (risk (Some d)) = Low.
Proof. vm_compute. split; reflexivity. Qed.

Example example_moderate :
  let d := {| current_main_temp := 20; current_main_humidity := 50;
              current_wind_speed := 3; aqi_list := [3%Q] |} in
  score_of d = 2%Z /\ level (risk (Some d)) = Moderate.
Proof. vm_compute. split; reflexivity. Qed.

(** ** Which labels can appear *)

Lemma matched_sound (s : Table.Snapshot) (e : Table.Entry) :
  In e (Table.matched s) ->
  In e (concat Table.table) /\ Table.condition e s = true.
Proof.
  unfold Table.matched. rewrite in_concat.
  intros (l & Hl & He). apply in_map_iff in Hl as (g & <- & Hg).
  unfold Table.first_match in He.
  destruct (find _ g) as [e'|] eqn:Hfind; [|contradiction].
  destruct He as [<-|[]].
  apply find_some in Hfind as [Hin Hc]. split; [|exact Hc].
  apply in_concat. exists g. split; assumption.
Qed.

Lemma trigger_sound (d : WeatherData) (x : string) :
  In x (triggers (risk (Some d))) ->
  x = "None detected" \/
  exists e, In e (concat Table.table) /\
            Table.condition e (Table.snapshot d) = true /\
            Table.label e = x.
Proof.
  rewrite triggers_risk. destruct (score_of d =? 0)%Z.
  - intros [<-|[]]. left. reflexivity.
  - intros Hin. right. apply in_map_iff in Hin as (e & Hl & He).
    apply matched_sound in He as [He Hc]. eauto.
Qed.

(** Case analysis on the row behind a trigger label: one goal per row of
    the table, with the row's condition in the context. *)
Ltac by_row H :=
  apply trigger_sound in H as [H|(e & Hin & Hc & Hl)];
  [ discriminate H
  | cbn in Hin;
    repeat (destruct Hin as [<-|Hin]; [try discriminate Hl|]);
    try contradiction ].

Lemma moderate_label_at_3 (d : WeatherData) :
  (aqi_of d == 3)%Q ->
  score_of d =
    (2 + temp_points (current_main_temp d) +
     humidity_points (current_main_humidity d) +
     wind_points (current_wind_speed d))%Z /\
  In "Moderate Air Pollution" (triggers (risk (Some d))) /\
  ~ In "Poor Air Quality" (triggers (risk (Some d))).
Proof.
  intros Ha.
  assert (H4 : Qgeb (aqi_of d) 4 = false) by (apply Qgeb_lt; lra).
  assert (H3 : Qgeb (aqi_of d) 3 = true) by (apply Qgeb_ge; lra).
  assert (Hs : score_of d =
    (2 + temp_points (current_main_temp d) +
     humidity_points (current_main_humidity d) +
     wind_points (current_wind_speed d))%Z).
  { rewrite score_of_points. unfold aqi_points. rewrite H4, H3. reflexivity. }
  split; [exact Hs|]. split.
  - rewrite triggers_risk.
    pose proof (temp_points_range (current_main_temp d)).
    pose proof (humidity_points_range (current_main_humidity d)).
    pose proof (wind_points_range (current_wind_speed d)).
    destruct (Z.eqb_spec (score_of d) 0); [lia|].
    unfold Table.matched, Table.table. cbn [map concat].
    rewrite map_app. apply in_or_app. left.
    unfold Table.first_match, Table.aqi_rows. cbn [find Table.condition].
    change (Table.airQualityIndex (Table.snapshot d)) with (aqi_of d).
    rewrite H4, H3. left. reflexivity.
  - intros Hin. by_row Hin.
    cbn in Hc. change (Qgeb (aqi_of d) 4 = true) in Hc. congruence.
Qed.

Lemma poor_label_at_4 (d : WeatherData) :
  (aqi_of d == 4)%Q ->
  score_of d =
    (3 + temp_points (current_main_temp d) +
     humidity_points (current_main_humidity d) +
     wind_points (current_wind_speed d))%Z /\
  In "Poor Air Quality" (triggers (risk (Some d))) /\
  ~ In "Moderate Air Pollution" (triggers (risk (Some d))).
Proof.
  intros Ha.
  assert (H4 : Qgeb (aqi_of d) 4 = true) by (apply Qgeb_ge; lra).
  assert (Hs : score_of d =
    (3 + temp_points (current_main_temp d) +
     humidity_points (current_main_humidity d) +
     wind_points (current_wind_speed d))%Z).
  { rewrite score_of_points. unfold aqi_points. rewrite H4. reflexivity. }
  pose proof (temp_points_range (current_main_temp d)).
  pose proof (humidity_points_range (current_main_humidity d)).
  pose proof (wind_points_range (current_wind_speed d)).
  split; [exact Hs|]. split.
  - rewrite triggers_risk.
    destruct (Z.eqb_spec (score_of d) 0); [lia|].
    unfold Table.matched, Table.table. cbn [map concat].
    rewrite map_app. apply in_or_app. left.
    unfold Table.first_match, Table.aqi_rows. cbn [find Table.condition].
    change (Table.airQualityIndex (Table.snapshot d)) with (aqi_of d).
    rewrite H4. left. reflexivity.
  - rewrite triggers_risk.
    destruct (Z.eqb_spec (score_of d) 0); [lia|].
    intros Hin. apply in_map_iff in Hin as (e & Hl & He).
    unfold Table.matched, Table.table in He. cbn [map concat] in He.
    unfold Table.first_match at 1 in He. unfold Table.aqi_rows in He.
    cbn [find Table.condition] in He.
    change (Table.airQualityIndex (Table.snapshot d)) with (aqi_of d) in He.
    rewrite H4 in He. cbn [app] in He.
    destruct He as [<-|He]; [discriminate Hl|].
    assert (Hm : In e (Table.matched
      {| Table.temperatureC := current_main_temp d;
         Table.humidityPct := current_main_humidity d;
         Table.windSpeedMps := current_wind_speed d;
         Table.airQualityIndex := 1 |})).
    { unfold Table.matched, Table.table. cbn [map concat].
      apply in_or_app. right. exact He. }
    apply matched_sound in Hm as [Hin Hc]. cbn in Hin.
    repeat (destruct Hin as [<-|Hin]; [try discriminate Hl|]);
      try contradiction.
    discriminate Hc.
Qed.

Lemma no_temperature_label (d : WeatherData) :
  (10 <= current_main_temp d <= 32)%Q ->
  temp_points (current_main_temp d) = 0%Z /\
  ~ In "Cold Air" (triggers (risk (Some d))) /\
  ~ In "Extreme Heat" (triggers (risk (Some d))).
Proof.
  intros [Hlo Hhi].
  assert (Hc' : Qltb (current_main_temp d) 10 = false) by (apply Qltb_ge; lra).
  assert (Hh' : Qgtb (current_main_temp d) 32 = false) by (apply Qgtb_le; lra).
  split; [unfold temp_points; rewrite Hc', Hh'; reflexivity|].
  split; intros Hin; by_row Hin; cbn in Hc.
  - change (Qltb (current_main_temp d) 10 = true) in Hc. congruence.
  - change (Qgtb (current_main_temp d) 32 = true) in Hc. congruence.
Qed.

(** C2. Boundary exactness.  A payload whose AQI reading is exactly 3 gets
    exactly 2 points from the AQI rule, with the trigger "Moderate Air
    Pollution" and without "Poor Air Quality"; one whose reading is exactly 4
    gets exactly 3 points, with "Poor Air Quality" and without "Moderate Air
    Pollution"; a temperature of exactly 10, and likewise of exactly 32, gets
    no point from the temperature rules and neither "Cold Air" nor "Extreme
    Heat". *)
Theorem boundary_exactness (d : WeatherData) :
  let r := risk (Some d) in
  let rest_of_aqi :=
    (temp_points (current_main_temp d) +
     humidity_points (current_main_humidity d) +
     wind_points (current_wind_speed d))%Z in
  let rest_of_temp :=
    (aqi_points (aqi_of d) +
     humidity_points (current_main_humidity d) +
     wind_points (current_wind_speed d))%Z in
  ((aqi_of d == 3)%Q ->
     score_of d = (2 + rest_of_aqi)%Z /\
     In "Moderate Air Pollution" (triggers r) /\
     ~ In "Poor Air Quality" (triggers r)) /\
  ((aqi_of d == 4)%Q ->
     score_of d = (3 + rest_of_aqi)%Z /\
     In "Poor Air Quality" (triggers r) /\
     ~ In "Moderate Air Pollution" (triggers r)) /\
  ((current_main_temp d == 10)%Q ->
     score_of d = rest_of_temp /\
     ~ In "Cold Air" (triggers r) /\ ~ In "Extreme Heat" (triggers r)) /\
  ((current_main_temp d == 32)%Q ->
     score_of d = rest_of_temp /\
     ~ In "Cold Air" (triggers r) /\ ~ In "Extreme Heat" (triggers r)).
Proof.
  cbn zeta. repeat split.
  1-3: apply moderate_label_at_3 in H; destruct H as (H1 & H2 & H3);
       first [rewrite H1; lia | assumption].
  1-3: apply poor_label_at_4 in H; destruct H as (H1 & H2 & H3);
       first [rewrite H1; lia | assumption].
  all: assert (Hr : (10 <= current_main_temp d <= 32)%Q) by (split; lra);
       apply no_temperature_label in Hr; destruct Hr as (H1 & H2 & H3);
       first [rewrite score_of_points, H1; lia | assumption].
Qed.

Lemma boundary_exactness_witness :
  (score_of (reading 20 50 3 3) = 2%Z /\
   ~ In "Poor Air Quality" (triggers (risk (Some (reading 20 50 3 3))))) /\
  (score_of (reading 20 50 3 4) = 3%Z /\
   ~ In "Moderate Air Pollution" (triggers (risk (Some (reading 20 50 3 4))))) /\
  ~ In "Cold Air" (triggers (risk (Some (reading 10 50 3 1)))) /\
  ~ In "Extreme Heat" (triggers (risk (Some (reading 32 50 3 1)))).
Proof.
  destruct (boundary_exactness (reading 20 50 3 3)) as (H3 & _).
  destruct (boundary_exactness (reading 20 50 3 4)) as (_ & H4 & _).
  destruct (boundary_exactness (reading 10 50 3 1)) as (_ & _ & H10 & _).
  destruct (boundary_exactness (reading 32 50 3 1)) as (_ & _ & _ & H32).
  split; [|split; [|split]].
  - destruct H3 as (Hs & _ & Hn); [reflexivity|]. split; [exact Hs|exact Hn].
  - destruct H4 as (Hs & _ & Hn); [reflexivity|]. split; [exact Hs|exact Hn].
  - destruct H10 as (_ & Hc & _); [reflexivity|]. exact Hc.
  - destruct H32 as (_ & _ & Hh); [reflexivity|]. exact Hh.
Defined.

(** ** Monotonicity *)

Lemma rank_level_of_mono (n m : Z) :
  (n <= m)%Z -> (rank (Table.level_of n) <= rank (Table.level_of m))%Z.
Proof.
  intros Hle. unfold Table.level_of.
  destruct (Z.leb_spec 5 n), (Z.leb_spec 5 m); cbn [rank]; try lia;
  destruct (Z.leb_spec 3 n), (Z.leb_spec 3 m); cbn [rank]; try lia;
  destruct (Z.leb_spec 1 n), (Z.leb_spec 1 m); cbn [rank]; lia.
Qed.

Lemma not_lower_of_score (t h w a t' h' w' a' : Q) :
  (score (rules t h w a) <= score (rules t' h' w' a'))%Z ->
  not_lower t h w a t' h' w' a'.
Proof.
  intros Hle. split; [exact Hle|].
  unfold assess. rewrite !level_conclude. apply rank_level_of_mono, Hle.
Qed.

Lemma aqi_points_mono (a a' : Q) :
  (a <= a')%Q -> (aqi_points a <= aqi_points a')%Z.
Proof.
  intros Hle. unfold aqi_points.
  destruct (Qgeb a 4) eqn:A4, (Qgeb a' 4) eqn:B4,
    (Qgeb a 3) eqn:A3, (Qgeb a' 3) eqn:B3; try lia; Qorder; lra.
Qed.

Lemma humidity_points_mono (h h' : Q) :
  (h <= h')%Q -> (humidity_points h <= humidity_points h')%Z.
Proof.
  intros Hle. unfold humidity_points.
  destruct (Qgtb h 75) eqn:A, (Qgtb h' 75) eqn:B; try lia; Qorder; lra.
Qed.

Lemma wind_points_mono (w w' : Q) :
  (w <= w')%Q -> (wind_points w <= wind_points w')%Z.
Proof.
  intros Hle. unfold wind_points.
  destruct (Qgtb w 10) eqn:A, (Qgtb w' 10) eqn:B; try lia; Qorder; lra.
Qed.

Lemma temp_points_mono_from_10 (t t' : Q) :
  (10 <= t)%Q -> (t <= t')%Q -> (temp_points t <= temp_points t')%Z.
Proof.
  intros Hlo Hle. unfold temp_points.
  destruct (Qltb t 10) eqn:A, (Qltb t' 10) eqn:B,
    (Qgtb t 32) eqn:C, (Qgtb t' 32) eqn:D; try lia; Qorder; lra.
Qed.

Lemma temp_points_across_10 (t x : Q) :
  (t < 10)%Q -> (10 <= x)%Q ->
  temp_points x = (temp_points t - 2 + (if Qgtb x 32 then 1 else 0))%Z.
Proof.
  intros Ht Hx. unfold temp_points.
  assert (H1 : Qltb t 10 = true) by (apply Qltb_lt; exact Ht).
  assert (H2 : Qltb x 10 = false) by (apply Qltb_ge; exact Hx).
  rewrite H1, H2. destruct (Qgtb x 32); reflexivity.
Qed.

Lemma temp_points_below_10 (t x : Q) :
  (t <= x)%Q -> (x < 10)%Q -> temp_points t = temp_points x.
Proof.
  intros Hle Hx. unfold temp_points.
  assert (H1 : Qltb t 10 = true) by (apply Qltb_lt; lra).
  assert (H2 : Qltb x 10 = true) by (apply Qltb_lt; exact Hx).
  rewrite H1, H2. reflexivity.
Qed.

(** C3, as the code has it.  With the other readings held fixed, raising the
    AQI, the humidity or the wind speed never lowers the score or the level.
    Raising the temperature from [t] to [x] keeps score and level from
    falling exactly when it does not cross the cold threshold, that is when
    [t] is at least 10 or [x] is still below 10; warming from below 10 to 10
    or more takes the two points of the cold rule away, one of which comes
    back when [x] is above 32.  In particular the level at AQI 4 is never
    below the level at AQI 2. *)
Theorem monotone_except_cold (t h w a x : Q) :
  ((a <= x)%Q -> not_lower t h w a t h w x) /\
  ((h <= x)%Q -> not_lower t h w a t x w a) /\
  ((w <= x)%Q -> not_lower t h w a t h x a) /\
  ((t <= x)%Q ->
   (not_lower t h w a x h w a <-> (10 <= t)%Q \/ (x < 10)%Q)) /\
  ((t < 10)%Q -> (10 <= x)%Q ->
   score (rules x h w a) =
   (score (rules t h w a) - 2 + (if Qgtb x 32 then 1 else 0))%Z) /\
  (rank (level (assess t h w 2)) <= rank (level (assess t h w 4)))%Z.
Proof.
  split; [|split; [|split; [|split; [|split]]]].
  - intros Hle. apply not_lower_of_score. rewrite !score_rules.
    pose proof (aqi_points_mono a x Hle). lia.
  - intros Hle. apply not_lower_of_score. rewrite !score_rules.
    pose proof (humidity_points_mono h x Hle). lia.
  - intros Hle. apply not_lower_of_score. rewrite !score_rules.
    pose proof (wind_points_mono w x Hle). lia.
  - intros Hle. split.
    + intros [Hs _]. rewrite !score_rules in Hs.
      destruct (Qlt_le_dec t 10) as [Ht|Ht]; [|left; exact Ht].
      destruct (Qlt_le_dec x 10) as [Hx|Hx]; [right; exact Hx|].
      exfalso. rewrite (temp_points_across_10 t x Ht Hx) in Hs.
      destruct (Qgtb x 32); lia.
    + intros [Ht|Hx]; apply not_lower_of_score; rewrite !score_rules.
      * pose proof (temp_points_mono_from_10 t x Ht Hle). lia.
      * rewrite (temp_points_below_10 t x Hle Hx). lia.
  - intros Ht Hx. rewrite !score_rules.
    rewrite (temp_points_across_10 t x Ht Hx). lia.
  - apply (not_lower_of_score t h w 2 t h w 4). rewrite !score_rules.
    assert (H24 : (2 <= 4)%Q) by lra.
    pose proof (aqi_points_mono 2 4 H24). lia.
Qed.

Lemma monotone_except_cold_witness :
  not_lower 20 50 3 2 20 50 3 4 /\
  not_lower 20 50 3 1 20 80 3 1 /\
  not_lower 20 50 3 1 20 50 12 1 /\
  not_lower 20 50 3 1 35 50 3 1 /\
  not_lower 5 50 3 1 8 50 3 1 /\
  score (rules 35 50 3 1) = (score (rules 5 50 3 1) - 2 + 1)%Z.
Proof.
  destruct (monotone_except_cold 20 50 3 2 4) as (Ha & _).
  destruct (monotone_except_cold 20 50 3 1 80) as (_ & Hh & _).
  destruct (monotone_except_cold 20 50 3 1 12) as (_ & _ & Hw & _).
  destruct (monotone_except_cold 20 50 3 1 35) as (_ & _ & _ & Ht & _).
  destruct (monotone_except_cold 5 50 3 1 8) as (_ & _ & _ & Hc & _).
  destruct (monotone_except_cold 5 50 3 1 35) as (_ & _ & _ & _ & Hd & _).
  split; [apply Ha; lra|].
  split; [apply Hh; lra|].
  split; [apply Hw; lra|].
  split; [apply Ht; [lra|left; lra]|].
  split; [apply Hc; [lra|right; lra]|].
  apply Hd; lra.
Defined.

(** C3 as stated fails for the temperature: warming from 5 to 20 degrees,
    with humidity 50, wind 3 and AQI 1 unchanged, takes the score from 2 to
    0 and the level from Moderate to Low. *)
Lemma warming_lowers_risk :
  (5 <= 20)%Q /\
  score (rules 5 50 3 1) = 2%Z /\ score (rules 20 50 3 1) = 0%Z /\
  level (assess 5 50 3 1) = Moderate /\ level (assess 20 50 3 1) = Low /\
  ~ not_lower 5 50 3 1 20 50 3 1.
Proof.
  split; [lra|].
  assert (H5 : score (rules 5 50 3 1) = 2%Z) by (vm_compute; reflexivity).
  assert (H20 : score (rules 20 50 3 1) = 0%Z) by (vm_compute; reflexivity).
  repeat split; try assumption; try (vm_compute; reflexivity).
  intros [Hs _]. rewrite H5, H20 in Hs. lia.
Qed.

(** ** The seeding invariant *)

Lemma table_labels (e : Table.Entry) :
  In e (concat Table.table) -> Table.label e <> "None detected".
Proof.
  cbn. intros Hin.
  repeat (destruct Hin as [<-|Hin]; [discriminate|]). contradiction.
Qed.

(** C4. For every weather payload: with a positive score the triggers and
    the advice have the same length; with score 0 each is the single stable
    entry; and score 0, level Low and triggers equal to the one label
    "None detected" are equivalent. *)
Theorem seeding_invariant (d : WeatherData) :
  let r := risk (Some d) in
  ((0 < score_of d)%Z -> length (triggers r) = length (advice r)) /\
  (score_of d = 0%Z ->
     triggers r = ["None detected"] /\ advice r = [Table.stable_advice]) /\
  (score_of d = 0%Z <-> level r = Low) /\
  (level r = Low <-> triggers r = ["None detected"]).
Proof.
  cbn zeta. pose proof (score_of_nonneg d) as Hpos.
  assert (Hlow : score_of d = 0%Z <-> level (risk (Some d)) = Low).
  { rewrite level_risk. unfold Table.level_of.
    destruct (Z.leb_spec 5 (score_of d)); [split; [lia|discriminate]|].
    destruct (Z.leb_spec 3 (score_of d)); [split; [lia|discriminate]|].
    destruct (Z.leb_spec 1 (score_of d)); [split; [lia|discriminate]|].
    split; [reflexivity|lia]. }
  rewrite triggers_risk, advice_risk.
  split; [|split; [|split]].
  - intros H. destruct (Z.eqb_spec (score_of d) 0); [lia|].
    rewrite !length_map. reflexivity.
  - intros H. rewrite H. split; reflexivity.
  - exact Hlow.
  - rewrite <- Hlow. destruct (Z.eqb_spec (score_of d) 0) as [E|E].
    + split; [reflexivity|intros _; exact E].
    + split; [intros H; contradiction|].
      intros H. exfalso.
      destruct (Table.matched (Table.snapshot d)) as [|e [|e' l]] eqn:Hm;
        try discriminate H.
      assert (Hin : In e (Table.matched (Table.snapshot d)))
        by (rewrite Hm; left; reflexivity).
      apply matched_sound in Hin as [Hin _].
      apply table_labels in Hin. cbn [map] in H. congruence.
Qed.

Lemma seeding_invariant_witness :
  length (triggers (risk (Some (reading 5 80 12 4)))) =
  length (advice (risk (Some (reading 5 80 12 4)))) /\
  triggers (risk (Some (reading 20 50 3 1))) = ["None detected"].
Proof.
  destruct (seeding_invariant (reading 5 80 12 4)) as (Hlen & _).
  destruct (seeding_invariant (reading 20 50 3 1)) as (_ & Hzero & _).
  split.
  - apply Hlen. reflexivity.
  - apply Hzero. reflexivity.
Defined.

(** C10. Without weather data the assessment is Low with no trigger and no
    advice at all: not the "None detected" and stable-conditions entries of a
    payload that scores 0, so that on this path level Low does not come with
    the seeded lists. *)
Theorem no_data_is_unseeded :
  level (risk None) = Low /\
  triggers (risk None) = [] /\
  advice (risk None) = [] /\
  triggers (risk None) <> ["None detected"] /\
  advice (risk None) <> [Table.stable_advice] /\
  ~ (level (risk None) = Low <-> triggers (risk None) = ["None detected"]) /\
  (forall d, triggers (risk (Some d)) <> triggers (risk None)).
Proof.
  split; [reflexivity|]. split; [reflexivity|]. split; [reflexivity|].
  split; [discriminate|]. split; [discriminate|]. split.
  - intros [H _]. specialize (H eq_refl). discriminate H.
  - intros d H. pose proof (score_of_total d) as Ht.
    rewrite triggers_risk in H. cbn [risk triggers] in H.
    destruct (Z.eqb_spec (score_of d) 0) as [E|E]; [discriminate H|].
    apply map_eq_nil in H. unfold Table.total in Ht. rewrite H in Ht.
    cbn in Ht. contradiction.
Qed.

End RiskFacts.

(** * Facts about the pattern *)

Section RegexFacts.
Import Api.

Lemma append_nil_l (s : string) : "" ++ s = s.
Proof. reflexivity. Qed.

Lemma append_cons (c : ascii) (s1 s2 : string) :
  String c s1 ++ s2 = String c (s1 ++ s2).
Proof. reflexivity. Qed.

Lemma append_empty (s1 s2 : string) : s1 ++ s2 = "" -> s1 = "" /\ s2 = "".
Proof.
  destruct s1 as [|c s1].
  - rewrite append_nil_l. intros ->. split; reflexivity.
  - rewrite append_cons. discriminate.
Qed.

Lemma matches_void_inv (s : string) : ~ matches Void s.
Proof. intros H. inversion H. Qed.

Lemma matches_eps_inv (s : string) : matches Eps s -> s = "".
Proof. intros H. inversion H. reflexivity. Qed.

Lemma matches_atom_inv (a : atom) (s : string) :
  matches (Atom a) s -> exists c, s = String c "" /\ atom_has a c = true.
Proof. intros H. inversion H; subst. eauto. Qed.

Lemma matches_seq_inv (r1 r2 : regex) (s : string) :
  matches (Seq r1 r2) s ->
  exists s1 s2, s = s1 ++ s2 /\ matches r1 s1 /\ matches r2 s2.
Proof. intros H. inversion H; subst. eauto. Qed.

Lemma matches_alt_inv (r1 r2 : regex) (s : string) :
  matches (Alt r1 r2) s -> matches r1 s \/ matches r2 s.
Proof. intros H. inversion H; subst; auto. Qed.

Lemma nullable_matches (r : regex) : nullable r = true <-> matches r "".
Proof.
  induction r as [| |a|r1 IH1 r2 IH2|r1 IH1 r2 IH2|r IH]; cbn [nullable].
  - split; [discriminate|]. intros H. destruct (matches_void_inv _ H).
  - split; [constructor|reflexivity].
  - split; [discriminate|]. intros H.
    apply matches_atom_inv in H as (c & E & _). discriminate E.
  - rewrite andb_true_iff, IH1, IH2. split.
    + intros [H1 H2]. exact (MSeq _ _ "" "" H1 H2).
    + intros H. apply matches_seq_inv in H as (s1 & s2 & E & H1 & H2).
      symmetry in E. apply append_empty in E as [-> ->]. split; assumption.
  - rewrite orb_true_iff, IH1, IH2. split.
    + intros [H|H]; [apply MAltL|apply MAltR]; exact H.
    + apply matches_alt_inv.
  - split; [constructor|reflexivity].
Qed.

Lemma deriv_sound (c : ascii) (r : regex) :
  forall s, matches (deriv c r) s -> matches r (String c s).
Proof.
  induction r as [| |a|r1 IH1 r2 IH2|r1 IH1 r2 IH2|r IH]; intros s; cbn [deriv].
  - intros H. destruct (matches_void_inv _ H).
  - intros H. destruct (matches_void_inv _ H).
  - destruct (atom_has a c) eqn:Ha; intros H.
    + apply matches_eps_inv in H as ->. constructor. exact Ha.
    + destruct (matches_void_inv _ H).
  - assert (Hseq : matches (Seq (deriv c r1) r2) s -> matches (Seq r1 r2) (String c s)).
    { intros H. apply matches_seq_inv in H as (s1 & s2 & -> & H1 & H2).
      apply IH1 in H1. exact (MSeq _ _ _ _ H1 H2). }
    destruct (nullable r1) eqn:Hn; [|exact Hseq].
    intros H. apply matches_alt_inv in H as [H|H].
    + apply Hseq, H.
    + apply nullable_matches in Hn. apply IH2 in H.
      exact (MSeq _ _ "" _ Hn H).
  - intros H. apply matches_alt_inv in H as [H|H];
      [apply MAltL, IH1|apply MAltR, IH2]; exact H.
  - intros H. apply matches_seq_inv in H as (s1 & s2 & -> & H1 & H2).
    apply IH in H1. exact (MStarS _ _ _ H1 H2).
Qed.

Lemma deriv_complete (c : ascii) (r : regex) (cs : string) :
  matches r cs -> forall s, cs = String c s -> matches (deriv c r) s.
Proof.
  induction 1 as [|a c' Ha|r1 r2 s1 s2 H1 IH1 H2 IH2|r1 r2 s' H' IH'
                 |r1 r2 s' H' IH'|r|r s1 s2 H1 IH1 H2 IH2];
    intros s E; cbn [deriv].
  - discriminate.
  - injection E as -> <-. rewrite Ha. constructor.
  - destruct s1 as [|c1 s1'].
    + rewrite append_nil_l in E. apply nullable_matches in H1. rewrite H1.
      apply MAltR, IH2, E.
    + rewrite append_cons in E. injection E as -> <-.
      assert (Hs : matches (Seq (deriv c r1) r2) (s1' ++ s2))
        by (apply MSeq; [apply IH1; reflexivity|exact H2]).
      destruct (nullable r1); [apply MAltL|]; exact Hs.
  - apply MAltL, IH', E.
  - apply MAltR, IH', E.
  - discriminate.
  - destruct s1 as [|c1 s1'].
    + rewrite append_nil_l in E. apply IH2, E.
    + rewrite append_cons in E. injection E as -> <-.
      apply MSeq; [apply IH1; reflexivity|exact H2].
Qed.

(** [test] decides the language of the expression. *)
Lemma test_matches (r : regex) (s : string) : test r s = true <-> matches r s.
Proof.
  revert r. induction s as [|c s IH]; intros r; cbn [test].
  - apply nullable_matches.
  - rewrite IH. split.
    + apply deriv_sound.
    + intros H. exact (deriv_complete c r _ H s eq_refl).
Qed.

Lemma star_plain (s : string) :
  matches (Star (Atom not_space_at)) s <-> plain s = true.
Proof.
  split.
  - remember (Star (Atom not_space_at)) as r eqn:Er. intros H.
    induction H as [| | | | | |r s1 s2 H1 _ H2 IH2]; try discriminate Er.
    + reflexivity.
    + injection Er as ->. apply matches_atom_inv in H1 as (c & -> & Ha).
      rewrite append_cons, append_nil_l. cbn [plain].
      rewrite Ha. apply IH2. reflexivity.
  - induction s as [|c s IH]; cbn [plain].
    + intros _. constructor.
    + rewrite andb_true_iff. intros [Hc Hs].
      apply (MStarS _ (String c "") s); [constructor; exact Hc|apply IH, Hs].
Qed.

Lemma plus_part (s : string) :
  matches (Plus (Atom not_space_at)) s <-> part s.
Proof.
  unfold Plus, part. split.
  - intros H. apply matches_seq_inv in H as (s1 & s2 & -> & H1 & H2).
    apply matches_atom_inv in H1 as (c & -> & Ha). apply star_plain in H2.
    rewrite append_cons, append_nil_l. cbn [plain].
    rewrite Ha, H2. split; [discriminate|reflexivity].
  - intros [Hne Hp]. destruct s as [|c s]; [contradiction|].
    cbn [plain] in Hp. apply andb_true_iff in Hp as [Hc Hs].
    apply (MSeq _ _ (String c "") s); [constructor; exact Hc|].
    apply star_plain, Hs.
Qed.

Lemma lit_matches (c : ascii) (s : string) :
  matches (Atom (Lit c)) s <-> s = String c "".
Proof.
  split.
  - intros H. apply matches_atom_inv in H as (c' & -> & Ha).
    cbn in Ha. apply Ascii.eqb_eq in Ha. subst. reflexivity.
  - intros ->. constructor. cbn. apply Ascii.eqb_refl.
Qed.

(** The addresses [emailRegex] accepts: a part, [@], a part, a dot, a part,
    where a part is a non-empty run of code units that are neither white
    space nor [@]. *)
Lemma emailRegex_shape (s : string) :
  test emailRegex s = true <->
  exists l d t, s = l ++ "@" ++ d ++ "." ++ t /\ part l /\ part d /\ part t.
Proof.
  rewrite test_matches. unfold emailRegex. split.
  - intros H.
    apply matches_seq_inv in H as (l & s1 & -> & Hl & H).
    apply matches_seq_inv in H as (at_ & s2 & -> & Hat & H).
    apply matches_seq_inv in H as (d & s3 & -> & Hd & H).
    apply matches_seq_inv in H as (dot & t & -> & Hdot & Ht).
    apply lit_matches in Hat, Hdot. subst.
    apply plus_part in Hl, Hd, Ht.
    exists l, d, t. split; [reflexivity|]. split; [exact Hl|split; [exact Hd|exact Ht]].
  - intros (l & d & t & -> & Hl & Hd & Ht).
    apply plus_part in Hl, Hd, Ht.
    apply MSeq; [exact Hl|].
    apply (MSeq _ _ "@"); [apply lit_matches; reflexivity|].
    apply MSeq; [exact Hd|].
    apply (MSeq _ _ "."); [apply lit_matches; reflexivity|exact Ht].
Qed.

End RegexFacts.

(** * Facts about the routes *)

Section ApiFacts.
Import Api.

(** ** When the driver throws *)

Lemma up_throws (env : Env) (q : Statement) (w : World) :
  always_up env -> throws env q w = refuses env q.
Proof. intros Hup. unfold throws. rewrite Hup. reflexivity. Qed.

Lemma storable_refuses (env : Env) (e : string) :
  storable env e = true ->
  refuses env (Select e) = false /\ refuses env (Delete e) = false /\
  forall a, refuses env (Upsert e a) = false.
Proof.
  unfold storable, refuses. destruct (POSTGRES_URL env); [|repeat split].
  cbn [negb orb andb]. rewrite andb_true_iff, negb_true_iff.
  intros [-> Hlen]. repeat split. intros _. cbn [orb].
  apply Nat.ltb_ge, Nat.leb_le, Hlen.
Qed.

Lemma healthy (env : Env) (e : string) (w : World) :
  always_up env -> storable env e = true ->
  throws env (Select e) w = false /\ throws env (Delete e) w = false /\
  forall a, throws env (Upsert e a) w = false.
Proof.
  intros Hup Hst. rewrite !(up_throws env _ w Hup).
  destruct (storable_refuses env e Hst) as (H1 & H2 & H3).
  split; [exact H1|]. split; [exact H2|].
  intros a. rewrite (up_throws env _ w Hup). apply H3.
Qed.

(** ** What the helpers and the routes do to the world *)

Lemma getSubscription_effect (env : Env) (e : string) (w : World) :
  getSubscription env e w =
  if connected env then
    (if throws env (Select e) w
     then (if POSTGRES_URL env then Returned None else Threw)
     else Returned (subscriptions w !! e),
     sent (Select e) w)
  else (Returned None, w).
Proof.
  unfold getSubscription, connected, db_select, run, bind, ret, execute, sent.
  destruct (POSTGRES_URL env).
  - cbn [orb snd]. destruct (throws env (Select e) w); reflexivity.
  - destruct (localDb env); [|reflexivity].
    cbn [orb snd]. destruct (throws env (Select e) w); reflexivity.
Qed.

Lemma get_subscription_effect (env : Env) (e : string) (w : World) :
  get_subscription env e w =
  if connected env then
    (if throws env (Select e) w
     then (if POSTGRES_URL env then status_json false false
           else unavailable_json)
     else match subscriptions w !! e with
          | Some r => status_json true (auto_notify r)
          | None => status_json false false
          end,
     sent (Select e) w)
  else (status_json false false, w).
Proof.
  unfold get_subscription, bind. rewrite getSubscription_effect.
  destruct (connected env); [|reflexivity].
  destruct (throws env (Select e) w).
  - destruct (POSTGRES_URL env); reflexivity.
  - destruct (subscriptions w !! e); reflexivity.
Qed.

Lemma upsert_effect (env : Env) (e : string) (a : bool) (w : World) :
  snd (upsertSubscription env e a w) =
  if connected env then
    if throws env (Upsert e a) w then sent (Upsert e a) w
    else {| subscriptions :=
              <[e := upserted (CURRENT_TIMESTAMP env) (subscriptions w !! e) a]>
                (subscriptions w);
            executed := executed w ++ [Upsert e a];
            dispatched := dispatched w |}
  else w.
Proof.
  unfold upsertSubscription, connected, attempt, db_upsert, run, bind, ret,
    execute, sent.
  destruct (POSTGRES_URL env).
  - cbn [orb snd]. destruct (throws env (Upsert e a) w); reflexivity.
  - destruct (localDb env); [|reflexivity].
    cbn [orb snd]. destruct (throws env (Upsert e a) w); reflexivity.
Qed.

Lemma unsubscribe_effect (env : Env) (e : string) (w : World) :
  post_unsubscribe env e w =
  if connected env then
    if throws env (Delete e) w then (database_error_json, sent (Delete e) w)
    else (unsubscribed_json,
          {| subscriptions := delete e (subscriptions w);
             executed := executed w ++ [Delete e];
             dispatched := dispatched w |})
  else (unsubscribed_json, w).
Proof.
  unfold post_unsubscribe, deleteSubscription, connected, db_delete, run,
    bind, json, ret, execute, sent.
  destruct (POSTGRES_URL env).
  - cbn [orb snd]. destruct (throws env (Delete e) w); reflexivity.
  - destruct (localDb env); [|reflexivity].
    cbn [orb snd]. destruct (throws env (Delete e) w); reflexivity.
Qed.

(** The answer of a status lookup that the database executes. *)
Lemma get_subscription_lookup (env : Env) (e : string) (w : World) :
  connected env = true -> throws env (Select e) w = false ->
  fst (get_subscription env e w) =
  match subscriptions w !! e with
  | Some r => status_json true (auto_notify r)
  | None => status_json false false
  end.
Proof.
  intros Hc Ht. rewrite get_subscription_effect, Hc, Ht. reflexivity.
Qed.

Lemma get_subscription_keeps_table (env : Env) (e : string) (w : World) :
  subscriptions (snd (get_subscription env e w)) = subscriptions w.
Proof.
  rewrite get_subscription_effect. destruct (connected env); reflexivity.
Qed.

Lemma get_subscription_mock (env : Env) (e : string) (w : World) :
  connected env = false ->
  get_subscription env e w = (status_json false false, w).
Proof. intros Hc. rewrite get_subscription_effect, Hc. reflexivity. Qed.

(** ** The guard of [/notify] *)

Lemma test_empty : test emailRegex "" = false.
Proof. reflexivity. Qed.

Lemma notify_accepted (env : Env) (req : NotifyBody) (e : string) (w : World) :
  toEmail req = Some e -> test emailRegex e = true ->
  post_notify env req w =
  bind (if saveEmail req
        then attempt (upsertSubscription env e (autoNotify req))
        else ret tt)
       (fun _ =>
          match resend env with
          | None =>
              json 200 [("success", JBool true);
                        ("message", JStr "Notification simulated (RESEND_API_KEY missing)");
                        ("simulated", JBool true)]
          | Some provider =>
              bind (send provider
                      {| from := or_else (EMAIL_FROM env)
                                   "AsthmaGuard <onboarding@resend.dev>";
                         to := [e]; subject := nb_subject req;
                         html := message req |})
                   (fun outcome =>
                      match outcome with
                      | Thrown => json 500 [("error", JStr "Internal server error")]
                      | Rejected msg =>
                          if includes msg "onboarding" then
                            json 403 [("error", JStr "Resend Onboarding Limit: You can only send emails to your own verified address while in onboarding mode.")]
                          else
                            json 500 [("error", JStr (or_else (Some msg) "Failed to send email"))]
                      | Delivered data =>
                          json 200 [("success", JBool true); ("data", data)]
                      end)
          end) w.
Proof.
  intros He Ht. unfold post_notify. rewrite He, Ht.
  destruct e as [|c e']; [rewrite test_empty in Ht; discriminate|].
  reflexivity.
Qed.

(** The world after the optional save of an accepted request. *)
Lemma save_step (env : Env) (req : NotifyBody) (e : string) (w : World) :
  (if saveEmail req
   then attempt (upsertSubscription env e (autoNotify req))
   else ret tt) w =
  (tt, if saveEmail req
       then snd (upsertSubscription env e (autoNotify req) w) else w).
Proof.
  unfold attempt, bind, ret. destruct (saveEmail req); [|reflexivity].
  destruct (upsertSubscription env e (autoNotify req) w) as [r w'].
  reflexivity.
Qed.

(** Whatever the mail provider does, an accepted request that asks to save
    leaves the table as [upsertSubscription] made it. *)
Lemma notify_table (env : Env) (req : NotifyBody) (e : string) (w : World) :
  toEmail req = Some e -> test emailRegex e = true ->
  subscriptions (snd (post_notify env req w)) =
  if saveEmail req
  then subscriptions (snd (upsertSubscription env e (autoNotify req) w))
  else subscriptions w.
Proof.
  intros He Ht. rewrite (notify_accepted env req e w He Ht).
  unfold bind at 1. rewrite save_step.
  unfold bind, json, ret, send.
  destruct (resend env) as [p|].
  - destruct (p _) as [data|msg|];
      [|destruct (includes msg "onboarding")|];
      destruct (saveEmail req); reflexivity.
  - destruct (saveEmail req); reflexivity.
Qed.

Lemma notify_simulated
  (env : Env) (req : NotifyBody) (e : string) (w : World) :
  toEmail req = Some e -> test emailRegex e = true -> resend env = None ->
  post_notify env req w =
    (simulated_json,
     if saveEmail req then snd (upsertSubscription env e (autoNotify req) w)
     else w).
Proof.
  intros He Ht Hr.
  rewrite (notify_accepted env req e w He Ht), Hr.
  unfold bind at 1. rewrite save_step. reflexivity.
Qed.

(** ** Keys *)

(** C5 as stated fails: nothing lower-cases the address.  On SQLite, after a
    [/notify] that saves "User@Example.com", the statement executed carries
    the address as typed, and a lookup of "user@example.com", the same
    address in lower case, finds no record. *)
Lemma letter_case_splits_records :
  let w := snd (post_notify sqlite_env
                  (subscribe_request "User@Example.com" true) fresh) in
  lowercase "User@Example.com" = lowercase "user@example.com" /\
  executed w = [Upsert "User@Example.com" true] /\
  executed w <> [Upsert (lowercase "User@Example.com") true] /\
  fst (get_subscription sqlite_env "User@Example.com" w) = status_json true true /\
  fst (get_subscription sqlite_env "user@example.com" w) = status_json false false.
Proof.
  cbn zeta.
  assert (Hw : post_notify sqlite_env (subscribe_request "User@Example.com" true) fresh =
    (simulated_json,
     {| subscriptions :=
          <["User@Example.com" :=
              {| auto_notify := true; last_notified_at := None; created_at := 0 |}]> ∅;
        executed := [Upsert "User@Example.com" true];
        dispatched := [] |})).
  { rewrite (notify_simulated _ _ "User@Example.com") by reflexivity.
    cbn [saveEmail subscribe_request]. rewrite upsert_effect. reflexivity. }
  rewrite Hw. cbn [snd executed].
  split; [reflexivity|]. split; [reflexivity|]. split; [discriminate|].
  rewrite !get_subscription_lookup by reflexivity. cbn [subscriptions].
  split.
  - rewrite lookup_insert_eq. reflexivity.
  - rewrite lookup_insert_ne by discriminate. rewrite lookup_empty. reflexivity.
Qed.

(** C5, as the code has it.  The routes use the address exactly as given.
    With a database connected that fails no statement and an address the
    table can hold (any on SQLite; on Postgres one of at most 255
    characters without the code unit 0): after a [/notify] that saves
    address [e] a lookup of [e] itself finds the record with the requested
    flag and a lookup of any other string [e'] answers as it did before, and
    after an [/unsubscribe] of [e] a lookup of [e] finds nothing and a
    lookup of any other string answers as before. *)
Theorem key_is_verbatim (env : Env) (req : NotifyBody) (e e' : string) (w : World) :
  connected env = true -> always_up env -> storable env e = true ->
  toEmail req = Some e -> test emailRegex e = true -> saveEmail req = true ->
  fst (get_subscription env e' (snd (post_notify env req w))) =
    (if decide (e' = e) then status_json true (autoNotify req)
     else fst (get_subscription env e' w)) /\
  fst (get_subscription env e' (snd (post_unsubscribe env e w))) =
    (if decide (e' = e) then status_json false false
     else fst (get_subscription env e' w)).
Proof.
  intros Hc Hup Hst He Ht Hs.
  destruct (healthy env e w Hup Hst) as (_ & Hdel & Hups).
  rewrite !get_subscription_effect, Hc. cbn [fst].
  rewrite !(up_throws env (Select e') _ Hup).
  rewrite (notify_table env req e w He Ht), Hs, upsert_effect, Hc, Hups.
  rewrite unsubscribe_effect, Hc, Hdel. cbn [snd subscriptions].
  destruct (decide (e' = e)) as [->|Hne].
  - destruct (storable_refuses env e Hst) as (-> & _).
    rewrite lookup_insert_eq, lookup_delete_eq.
    split; [|reflexivity]. destruct (subscriptions w !! e); reflexivity.
  - rewrite lookup_insert_ne, lookup_delete_ne by congruence.
    split; reflexivity.
Qed.

Lemma key_is_verbatim_witness :
  fst (get_subscription sqlite_env "user@example.com"
         (snd (post_notify sqlite_env
                 (subscribe_request "User@Example.com" true) fresh))) =
  fst (get_subscription sqlite_env "user@example.com" fresh).
Proof.
  refine (proj1 (key_is_verbatim sqlite_env
            (subscribe_request "User@Example.com" true)
            "User@Example.com" "user@example.com" fresh _ _ _ _ _ _));
    try reflexivity.
  intros n. reflexivity.
Defined.

(** ** Validation *)

(** C6. A [/notify] request whose [toEmail] is missing or does not match
    [emailRegex] is answered 400 "Please provide a valid email address." and
    leaves the world as it was: no statement is executed, the table is
    unchanged and no mail is handed to the provider. *)
Theorem invalid_email_has_no_effect (env : Env) (req : NotifyBody) (w : World) :
  toEmail req = None \/
  (exists e, toEmail req = Some e /\ test emailRegex e = false) ->
  post_notify env req w = (invalid_email_json, w).
Proof.
  intros [Hnone|(e & He & Ht)]; unfold post_notify.
  - rewrite Hnone. reflexivity.
  - rewrite He, Ht. rewrite orb_true_r. reflexivity.
Qed.

Lemma invalid_email_has_no_effect_witness :
  post_notify sqlite_env (subscribe_request "not-an-email" true) fresh =
  (invalid_email_json, fresh).
Proof.
  apply invalid_email_has_no_effect. right.
  exists "not-an-email". split; reflexivity.
Defined.

(** ** Round trip *)

(** C7 as stated fails when neither database is available: the helpers then
    do nothing, so after saving "a@b.co" with autoNotify, directly or through
    [/notify], [/subscription/a@b.co] still answers not subscribed. *)
Lemma mock_store_forgets :
  test emailRegex "a@b.co" = true /\
  fst (get_subscription mock_env "a@b.co"
         (snd (upsertSubscription mock_env "a@b.co" true fresh))) =
    status_json false false /\
  fst (get_subscription mock_env "a@b.co"
         (snd (post_notify mock_env (subscribe_request "a@b.co" true) fresh))) =
    status_json false false.
Proof. repeat split. Qed.

(** C7, as the code has it.  With a database connected that fails no
    statement, and an address the table can hold (any on SQLite; on
    Postgres one of at most 255 characters without the code unit 0): after
    [upsertSubscription] with autoNotify true the status is subscribed with
    autoNotify true; a following [/unsubscribe] succeeds and the status is
    then not subscribed, autoNotify false.  When neither database is
    available, [upsertSubscription] changes nothing and every status lookup
    answers not subscribed, autoNotify false. *)
Theorem round_trip_connected (env : Env) (e : string) (w : World) :
  (connected env = true -> always_up env -> storable env e = true ->
   let w1 := snd (upsertSubscription env e true w) in
   let w2 := snd (get_subscription env e w1) in
   let w3 := snd (post_unsubscribe env e w2) in
   fst (get_subscription env e w1) = status_json true true /\
   fst (post_unsubscribe env e w2) = unsubscribed_json /\
   fst (get_subscription env e w3) = status_json false false) /\
  (connected env = false ->
   (forall flag, snd (upsertSubscription env e flag w) = w) /\
   (forall w', fst (get_subscription env e w') = status_json false false)).
Proof.
  split.
  - intros Hc Hup Hst. cbn zeta.
    assert (Hs : forall w', throws env (Select e) w' = false)
      by (intros w'; apply (healthy env e w' Hup Hst)).
    assert (Hd : forall w', throws env (Delete e) w' = false)
      by (intros w'; apply (healthy env e w' Hup Hst)).
    assert (Hu : throws env (Upsert e true) w = false)
      by (apply (healthy env e w Hup Hst)).
    rewrite !unsubscribe_effect, !get_subscription_effect, upsert_effect.
    rewrite Hc, Hu, !Hs, !Hd. cbn [fst snd sent subscriptions].
    rewrite lookup_insert_eq, lookup_delete_eq.
    destruct (subscriptions w !! e); repeat split.
  - intros Hc. split.
    + intros flag. rewrite upsert_effect, Hc. reflexivity.
    + intros w'. rewrite get_subscription_mock by exact Hc. reflexivity.
Qed.

Lemma round_trip_connected_witness :
  fst (get_subscription sqlite_env "a@b.co"
         (snd (upsertSubscription sqlite_env "a@b.co" true fresh))) =
  status_json true true /\
  fst (get_subscription mock_env "a@b.co" fresh) = status_json false false.
Proof.
  split.
  - refine (proj1 (proj1 (round_trip_connected sqlite_env "a@b.co" fresh)
                     _ _ _)); try reflexivity.
    intros n. reflexivity.
  - exact (proj2 (proj2 (round_trip_connected mock_env "a@b.co" fresh)
                    eq_refl) fresh).
Defined.

(** ** Unsubscribing *)

(** C8 as stated fails for an address Postgres refuses as a parameter: the
    address "a", code unit 0, "@b.co" matches [emailRegex] and has no
    record, but the DELETE for it throws and [/unsubscribe] answers 500
    "Database error". *)
Lemma unsubscribe_refused_on_postgres :
  test emailRegex nul_address = true /\
  subscriptions fresh !! nul_address = None /\
  fst (post_unsubscribe postgres_env nul_address fresh) = database_error_json /\
  status (fst (post_unsubscribe postgres_env nul_address fresh)) = 500%Z.
Proof.
  split; [reflexivity|]. split; [apply lookup_empty|].
  rewrite unsubscribe_effect. split; reflexivity.
Qed.

(** C8, as the code has it.  Unsubscribing an address that has no record
    leaves the table and the mails as they were, and so does a second
    unsubscribe right after.  Each of the two answers success when no
    database is connected or the database executes the DELETE, and 500
    "Database error" when the driver throws on it. *)
Theorem unsubscribe_absent_succeeds (env : Env) (e : string) (w : World) :
  subscriptions w !! e = None ->
  let w1 := snd (post_unsubscribe env e w) in
  let w2 := snd (post_unsubscribe env e w1) in
  subscriptions w1 = subscriptions w /\ dispatched w1 = dispatched w /\
  subscriptions w2 = subscriptions w /\ dispatched w2 = dispatched w /\
  fst (post_unsubscribe env e w) =
    (if connected env && throws env (Delete e) w
     then database_error_json else unsubscribed_json) /\
  fst (post_unsubscribe env e w1) =
    (if connected env && throws env (Delete e) w1
     then database_error_json else unsubscribed_json).
Proof.
  intros Hnone. cbn zeta.
  assert (Hstep : forall w0, subscriptions w0 !! e = None ->
    subscriptions (snd (post_unsubscribe env e w0)) = subscriptions w0 /\
    dispatched (snd (post_unsubscribe env e w0)) = dispatched w0 /\
    fst (post_unsubscribe env e w0) =
      (if connected env && throws env (Delete e) w0
       then database_error_json else unsubscribed_json)).
  { intros w0 H0. rewrite unsubscribe_effect.
    destruct (connected env); [|repeat split].
    destruct (throws env (Delete e) w0); cbn; repeat split.
    apply delete_id, H0. }
  destruct (Hstep w Hnone) as (Ht1 & Hd1 & Hr1).
  assert (Hnone1 : subscriptions (snd (post_unsubscribe env e w)) !! e = None)
    by (rewrite Ht1; exact Hnone).
  destruct (Hstep _ Hnone1) as (Ht2 & Hd2 & Hr2).
  split; [exact Ht1|]. split; [exact Hd1|].
  split; [rewrite Ht2; exact Ht1|]. split; [rewrite Hd2; exact Hd1|].
  split; [exact Hr1|exact Hr2].
Qed.

Lemma unsubscribe_absent_succeeds_witness :
  fst (post_unsubscribe sqlite_env "a@b.co" fresh) = unsubscribed_json /\
  fst (post_unsubscribe sqlite_env "a@b.co"
         (snd (post_unsubscribe sqlite_env "a@b.co" fresh))) = unsubscribed_json.
Proof.
  destruct (unsubscribe_absent_succeeds sqlite_env "a@b.co" fresh)
    as (_ & _ & _ & _ & H1 & H2).
  - apply lookup_empty.
  - split; [exact H1|exact H2].
Defined.

(** ** Mail provider not configured *)

(** C9. A [/notify] request with a valid address, when no mail provider is
    configured, is answered 200 with success true and simulated true, also
    when the write to the database fails; no mail is handed to a provider.
    The upsert comes first: the world the request leaves is the one
    [upsertSubscription] produced when the request asked to save the
    subscription, with the upsert statement sent to the connected database,
    and the one it found otherwise.  When the database executes that
    statement, the record of the address then carries the requested
    flag. *)
Theorem unconfigured_mail_is_simulated
  (env : Env) (req : NotifyBody) (e : string) (w : World) :
  toEmail req = Some e -> test emailRegex e = true -> resend env = None ->
  post_notify env req w =
    (simulated_json,
     if saveEmail req then snd (upsertSubscription env e (autoNotify req) w)
     else w) /\
  status (fst (post_notify env req w)) = 200%Z /\
  dispatched (snd (post_notify env req w)) = dispatched w /\
  executed (snd (post_notify env req w)) =
    (executed w ++
     if saveEmail req && connected env then [Upsert e (autoNotify req)]
     else [])%list /\
  (saveEmail req = true -> connected env = true ->
   throws env (Upsert e (autoNotify req)) w = false ->
   auto_notify <$> subscriptions (snd (post_notify env req w)) !! e =
   Some (autoNotify req)).
Proof.
  intros He Ht Hr.
  rewrite (notify_simulated env req e w He Ht Hr). cbn [fst snd].
  split; [reflexivity|]. split; [reflexivity|]. split; [|split].
  - destruct (saveEmail req); [|reflexivity]. rewrite upsert_effect.
    destruct (connected env); [|reflexivity].
    destruct (throws env _ w); reflexivity.
  - destruct (saveEmail req); [|symmetry; apply app_nil_r].
    rewrite upsert_effect. cbn [andb].
    destruct (connected env); [|symmetry; apply app_nil_r].
    destruct (throws env _ w); reflexivity.
  - intros Hs Hc Hth. rewrite Hs, upsert_effect, Hc, Hth.
    cbn [subscriptions]. rewrite lookup_insert_eq.
    destruct (subscriptions w !! e); reflexivity.
Qed.

Lemma unconfigured_mail_is_simulated_witness :
  post_notify sqlite_env (subscribe_request "a@b.co" true) fresh =
  (simulated_json,
   snd (upsertSubscription sqlite_env "a@b.co" true fresh)).
Proof.
  refine (proj1 (unconfigured_mail_is_simulated sqlite_env
            (subscribe_request "a@b.co" true) "a@b.co" fresh _ _ _));
    reflexivity.
Defined.

End ApiFacts.

(** * More facts about the subscription routes *)

Section ServerFacts.
Import Api.

(** ** Substrings *)

Lemma prefix_spec (n h : string) :
  String.prefix n h = true <-> exists b, h = n ++ b.
Proof.
  revert h. induction n as [|c n IH]; intros h.
  - split; [intros _; exists h; reflexivity|].
    intros _. destruct h; reflexivity.
  - destruct h as [|d h].
    + split; [discriminate|]. intros (b & E). rewrite append_cons in E.
      discriminate E.
    + cbn [String.prefix].
      destruct (ascii_dec c d) as [->|Hne].
      * rewrite IH. split; intros (b & E); exists b.
        -- rewrite append_cons, E. reflexivity.
        -- rewrite append_cons in E. injection E as ->. reflexivity.
      * split; [discriminate|]. intros (b & E). rewrite append_cons in E.
        injection E as -> _. contradiction.
Qed.

(** [includes] finds exactly the substrings. *)
Lemma includes_spec (h n : string) :
  includes h n = true <-> exists a b, h = a ++ n ++ b.
Proof.
  induction h as [|c h IH]; cbn [includes]; rewrite orb_true_iff.
  - split.
    + intros [H|H]; [|discriminate]. apply prefix_spec in H as (b & E).
      exists "", b. exact E.
    + intros (a & b & E). left. apply prefix_spec.
      symmetry in E. apply append_empty in E as [-> E].
      exists b. symmetry. exact E.
  - rewrite IH, prefix_spec. split.
    + intros [(b & E)|(a & b & E)].
      * exists "", b. exact E.
      * exists (String c a), b. rewrite append_cons, E. reflexivity.
    + intros (a & b & E). destruct a as [|c' a].
      * left. exists b. exact E.
      * right. rewrite append_cons in E. injection E as -> ->.
        exists a, b. reflexivity.
Qed.

(** ** The guard of [/notify], both ways *)

Lemma notify_rejected (env : Env) (req : NotifyBody) (w : World) :
  (forall e, toEmail req = Some e -> test emailRegex e = false) ->
  post_notify env req w = (invalid_email_json, w).
Proof.
  intros H. unfold post_notify. destruct (toEmail req) as [e|]; [|reflexivity].
  rewrite (H e eq_refl), orb_true_r. reflexivity.
Qed.

(** What an accepted request leaves behind, by what the provider does. *)
Lemma notify_sends (env : Env) (req : NotifyBody) (e : string) (w : World)
      (p : Email -> SendOutcome) :
  toEmail req = Some e -> test emailRegex e = true -> resend env = Some p ->
  let w1 := if saveEmail req
            then snd (upsertSubscription env e (autoNotify req) w) else w in
  post_notify env req w =
  (match p (mail_of env req e) with
   | Delivered data =>
       {| status := 200;
          body := JObj [("success", JBool true); ("data", data)] |}
   | Rejected msg =>
       if includes msg "onboarding" then
         error_json 403 "Resend Onboarding Limit: You can only send emails to your own verified address while in onboarding mode."
       else error_json 500 (or_else (Some msg) "Failed to send email")
   | Thrown => error_json 500 "Internal server error"
   end,
   {| subscriptions := subscriptions w1;
      executed := executed w1;
      dispatched := dispatched w1 ++ [mail_of env req e] |}).
Proof.
  intros He Ht Hp. cbn zeta.
  rewrite (notify_accepted env req e w He Ht), Hp.
  unfold bind at 1. rewrite save_step.
  unfold bind, json, ret, send. fold (mail_of env req e).
  destruct (p (mail_of env req e)) as [data|msg|]; [reflexivity| |reflexivity].
  destruct (includes msg "onboarding"); reflexivity.
Qed.

Lemma upsert_keeps_mails (env : Env) (e : string) (a : bool) (w : World) :
  dispatched (snd (upsertSubscription env e a w)) = dispatched w.
Proof.
  rewrite upsert_effect. destruct (connected env); [|reflexivity].
  destruct (throws env _ w); reflexivity.
Qed.

(** X1. An accepted [/notify] request, with a mail provider configured,
    hands the provider exactly one mail: addressed to the requested address
    alone, with the subject and body of the request and the configured
    sender (the default one when [EMAIL_FROM] is unset or empty).  This is
    so whatever the provider answers and whether or not the subscription is
    saved. *)
Theorem notify_dispatches_once
  (env : Env) (req : NotifyBody) (e : string) (w : World)
  (p : Email -> SendOutcome) :
  toEmail req = Some e -> test emailRegex e = true -> resend env = Some p ->
  exists m,
    dispatched (snd (post_notify env req w)) = (dispatched w ++ [m])%list /\
    to m = [e] /\ subject m = nb_subject req /\ html m = message req /\
    from m = match EMAIL_FROM env with
             | Some f => if String.eqb f "" then "AsthmaGuard <onboarding@resend.dev>" else f
             | None => "AsthmaGuard <onboarding@resend.dev>"
             end.
Proof.
  intros He Ht Hp. exists (mail_of env req e).
  rewrite (notify_sends env req e w p He Ht Hp). cbn [snd dispatched].
  split.
  - destruct (saveEmail req); [rewrite upsert_keeps_mails|]; reflexivity.
  - repeat split. cbn [mail_of from]. unfold or_else.
    destruct (EMAIL_FROM env) as [[|c f]|]; reflexivity.
Qed.

Lemma notify_dispatches_once_witness :
  exists m,
    dispatched (snd (post_notify (mail_env Thrown)
                       (subscribe_request "a@b.co" true) fresh)) = [m] /\
    to m = ["a@b.co"].
Proof.
  destruct (notify_dispatches_once (mail_env Thrown)
              (subscribe_request "a@b.co" true) "a@b.co" fresh
              (fun _ => Thrown) eq_refl eq_refl eq_refl)
    as (m & Hd & Ht & _).
  exists m. split; [exact Hd|exact Ht].
Defined.

(** X2. The status of every [/notify] answer is 200, 400, 403 or 500.  It is
    400 exactly when the address is missing or does not match [emailRegex],
    and 200 exactly when the address matches and either no mail provider is
    configured or the provider delivers the mail. *)
Theorem notify_status (env : Env) (req : NotifyBody) (w : World) :
  let code := status (fst (post_notify env req w)) in
  (code = 200 \/ code = 400 \/ code = 403 \/ code = 500)%Z /\
  (code = 400%Z <->
   forall e, toEmail req = Some e -> test emailRegex e = false) /\
  (code = 200%Z <->
   exists e, toEmail req = Some e /\ test emailRegex e = true /\
     match resend env with
     | None => True
     | Some p => exists data, p (mail_of env req e) = Delivered data
     end).
Proof.
  cbn zeta.
  destruct (toEmail req) as [e|] eqn:He.
  2:{ rewrite notify_rejected by (rewrite He; discriminate).
      cbn. split; [auto|]. split.
      - split; [discriminate|reflexivity].
      - split; [discriminate|]. intros (e & E & _). discriminate E. }
  destruct (test emailRegex e) eqn:Ht.
  2:{ rewrite notify_rejected
        by (intros e' E; rewrite He in E; injection E as <-; exact Ht).
      cbn. split; [auto|]. split.
      - split; [|reflexivity]. intros _ e' E. injection E as <-. exact Ht.
      - split; [discriminate|]. intros (e' & E & Ht' & _).
        injection E as <-. congruence. }
  assert (Hno : ~ forall e', Some e = Some e' -> test emailRegex e' = false).
  { intros H. specialize (H e eq_refl). congruence. }
  destruct (resend env) as [p|] eqn:Hp.
  - rewrite (notify_sends env req e w p He Ht Hp). cbn [fst].
    destruct (p (mail_of env req e)) as [data|msg|] eqn:Ho.
    + cbn. split; [auto|]. split.
      * split; [discriminate|]. intros H. contradiction.
      * split; [|reflexivity]. intros _. exists e. eauto.
    + assert (Hcode : forall r : Response,
                r = (if includes msg "onboarding" then
                       error_json 403 "Resend Onboarding Limit: You can only send emails to your own verified address while in onboarding mode."
                     else error_json 500 (or_else (Some msg) "Failed to send email")) ->
                (status r = 403 \/ status r = 500)%Z).
      { intros r ->. destruct (includes msg "onboarding"); cbn; auto. }
      specialize (Hcode _ eq_refl).
      split; [destruct Hcode as [->| ->]; auto|]. split.
      * split; [|intros H; contradiction].
        intros H. destruct Hcode as [E|E]; rewrite E in H; discriminate H.
      * split.
        -- intros H. destruct Hcode as [E|E]; rewrite E in H; discriminate H.
        -- intros (e' & E & _ & data & Hd). injection E as <-. congruence.
    + cbn. split; [auto|]. split.
      * split; [discriminate|]. intros H. contradiction.
      * split; [discriminate|].
        intros (e' & E & _ & data & Hd). injection E as <-. congruence.
  - rewrite (notify_simulated env req e w He Ht Hp). cbn. split; [auto|]. split.
    + split; [discriminate|]. intros H. contradiction.
    + split; [|reflexivity]. intros _. exists e. auto.
Qed.

(** X3. When the provider refuses the mail of an accepted request, the
    answer is 403 with the onboarding notice if the provider's message
    contains "onboarding" as a substring, and otherwise 500 with the
    provider's message, or with "Failed to send email" when that message is
    empty; when the call to the provider throws, the answer is 500
    "Internal server error". *)
Theorem provider_failure_answer
  (env : Env) (req : NotifyBody) (e : string) (w : World)
  (p : Email -> SendOutcome) :
  toEmail req = Some e -> test emailRegex e = true -> resend env = Some p ->
  (forall msg, p (mail_of env req e) = Rejected msg ->
     ((exists a b, msg = a ++ "onboarding" ++ b) ->
      fst (post_notify env req w) =
      error_json 403 "Resend Onboarding Limit: You can only send emails to your own verified address while in onboarding mode.") /\
     (~ (exists a b, msg = a ++ "onboarding" ++ b) ->
      fst (post_notify env req w) =
      error_json 500 (if String.eqb msg "" then "Failed to send email" else msg))) /\
  (p (mail_of env req e) = Thrown ->
   fst (post_notify env req w) = error_json 500 "Internal server error").
Proof.
  intros He Ht Hp. rewrite (notify_sends env req e w p He Ht Hp). cbn [fst].
  split.
  - intros msg ->. split; intros H.
    + apply includes_spec in H. rewrite H. reflexivity.
    + destruct (includes msg "onboarding") eqn:Hi.
      * apply includes_spec in Hi. contradiction.
      * destruct msg; reflexivity.
  - intros ->. reflexivity.
Qed.

Lemma provider_failure_answer_witness :
  fst (post_notify (mail_env (Rejected "You are in onboarding mode"))
         (subscribe_request "a@b.co" true) fresh) =
  error_json 403 "Resend Onboarding Limit: You can only send emails to your own verified address while in onboarding mode." /\
  fst (post_notify (mail_env (Rejected ""))
         (subscribe_request "a@b.co" true) fresh) =
  error_json 500 "Failed to send email".
Proof.
  split.
  - refine (proj1 (proj1 (provider_failure_answer
      (mail_env (Rejected "You are in onboarding mode"))
      (subscribe_request "a@b.co" true) "a@b.co" fresh _
      eq_refl eq_refl eq_refl) _ eq_refl) _).
    exists "You are in ", " mode". reflexivity.
  - refine (proj2 (proj1 (provider_failure_answer
      (mail_env (Rejected ""))
      (subscribe_request "a@b.co" true) "a@b.co" fresh _
      eq_refl eq_refl eq_refl) _ eq_refl) _).
    intros H. apply includes_spec in H. discriminate H.
Defined.

(** ** What one request does to the world *)

Lemma notify_store (env : Env) (req : NotifyBody) (w : World) :
  subscriptions (snd (post_notify env req w)) =
  match toEmail req with
  | Some e =>
      if writes env req e w then
        <[e := upserted (CURRENT_TIMESTAMP env) (subscriptions w !! e)
                 (autoNotify req)]> (subscriptions w)
      else subscriptions w
  | None => subscriptions w
  end.
Proof.
  unfold writes, saves. destruct (toEmail req) as [e|] eqn:He.
  2:{ rewrite notify_rejected by (rewrite He; discriminate). reflexivity. }
  destruct (test emailRegex e) eqn:Ht.
  2:{ rewrite notify_rejected
        by (intros e' E; rewrite He in E; injection E as <-; exact Ht).
      reflexivity. }
  rewrite (notify_table env req e w He Ht). cbn [andb].
  destruct (saveEmail req); [|reflexivity].
  rewrite upsert_effect. cbn [andb].
  destruct (connected env); [|reflexivity].
  destruct (throws env _ w); reflexivity.
Qed.

Lemma notify_statements (env : Env) (req : NotifyBody) (w : World) :
  executed (snd (post_notify env req w)) =
  (executed w ++
   match toEmail req with
   | Some e => if saves env req e then [Upsert e (autoNotify req)] else []
   | None => []
   end)%list.
Proof.
  unfold saves. destruct (toEmail req) as [e|] eqn:He.
  2:{ rewrite notify_rejected by (rewrite He; discriminate).
      symmetry. apply app_nil_r. }
  destruct (test emailRegex e) eqn:Ht.
  2:{ rewrite notify_rejected
        by (intros e' E; rewrite He in E; injection E as <-; exact Ht).
      symmetry. apply app_nil_r. }
  cbn [andb].
  assert (Hup : executed (if saveEmail req
                          then snd (upsertSubscription env e (autoNotify req) w)
                          else w) =
                (executed w ++
                 (if saveEmail req && connected env
                  then [Upsert e (autoNotify req)] else []))%list).
  { destruct (saveEmail req); [|symmetry; apply app_nil_r].
    rewrite upsert_effect. cbn [andb].
    destruct (connected env); [|symmetry; apply app_nil_r].
    destruct (throws env _ w); reflexivity. }
  destruct (resend env) as [p|] eqn:Hp.
  - rewrite (notify_sends env req e w p He Ht Hp). exact Hup.
  - rewrite (notify_simulated env req e w He Ht Hp). exact Hup.
Qed.

Lemma notify_mails (env : Env) (req : NotifyBody) (w : World) :
  dispatched (snd (post_notify env req w)) =
  (dispatched w ++
   match toEmail req, resend env with
   | Some e, Some _ => if test emailRegex e then [mail_of env req e] else []
   | _, _ => []
   end)%list.
Proof.
  destruct (toEmail req) as [e|] eqn:He.
  2:{ rewrite notify_rejected by (rewrite He; discriminate).
      symmetry. apply app_nil_r. }
  destruct (test emailRegex e) eqn:Ht.
  2:{ rewrite notify_rejected
        by (intros e' E; rewrite He in E; injection E as <-; exact Ht).
      destruct (resend env); symmetry; apply app_nil_r. }
  destruct (resend env) as [p|] eqn:Hp.
  - rewrite (notify_sends env req e w p He Ht Hp). cbn [snd dispatched].
    destruct (saveEmail req); [rewrite upsert_keeps_mails|]; reflexivity.
  - rewrite (notify_simulated env req e w He Ht Hp). cbn [snd].
    rewrite app_nil_r.
    destruct (saveEmail req); [apply upsert_keeps_mails|reflexivity].
Qed.

(** X4. A [/notify] request that does not ask to save the subscription
    neither changes the table nor executes any statement, whatever else
    happens to it. *)
Theorem notify_without_save_keeps_store
  (env : Env) (req : NotifyBody) (w : World) :
  saveEmail req = false ->
  subscriptions (snd (post_notify env req w)) = subscriptions w /\
  executed (snd (post_notify env req w)) = executed w.
Proof.
  intros Hs. rewrite notify_store, notify_statements. unfold writes, saves.
  rewrite Hs. destruct (toEmail req) as [e|].
  - rewrite andb_false_r. cbn [andb]. split; [reflexivity|apply app_nil_r].
  - split; [reflexivity|apply app_nil_r].
Qed.

Lemma notify_without_save_keeps_store_witness :
  subscriptions (snd (post_notify (mail_env Thrown)
    {| message := "m"; nb_subject := "s"; toEmail := Some "a@b.co";
       saveEmail := false; autoNotify := true |} fresh)) = ∅.
Proof.
  refine (proj1 (notify_without_save_keeps_store (mail_env Thrown)
    {| message := "m"; nb_subject := "s"; toEmail := Some "a@b.co";
       saveEmail := false; autoNotify := true |} fresh _)).
  reflexivity.
Defined.

Lemma handle_store (env : Env) (r : Request) (w : World) :
  subscriptions (snd (handle env r w)) =
  match r with
  | GetSubscription _ => subscriptions w
  | PostUnsubscribe e =>
      if removes env e w then delete e (subscriptions w) else subscriptions w
  | PostNotify req =>
      match toEmail req with
      | Some e =>
          if writes env req e w then
            <[e := upserted (CURRENT_TIMESTAMP env) (subscriptions w !! e)
                     (autoNotify req)]> (subscriptions w)
          else subscriptions w
      | None => subscriptions w
      end
  end.
Proof.
  destruct r as [e|e|req]; cbn [handle].
  - apply get_subscription_keeps_table.
  - rewrite unsubscribe_effect. unfold removes.
    destruct (connected env); [|reflexivity].
    destruct (throws env (Delete e) w); reflexivity.
  - apply notify_store.
Qed.

(** X5. A request changes no record but the one of the address it names:
    the record of every other string is after the request what it was
    before. *)
Theorem request_isolation (env : Env) (r : Request) (w : World) (e' : string) :
  address_of r <> Some e' ->
  subscriptions (snd (handle env r w)) !! e' = subscriptions w !! e'.
Proof.
  intros Hne. rewrite handle_store.
  destruct r as [e|e|req]; cbn [address_of] in Hne.
  - reflexivity.
  - destruct (removes env e w); [|reflexivity].
    apply lookup_delete_ne. congruence.
  - destruct (toEmail req) as [e|]; [|reflexivity].
    destruct (writes env req e w); [|reflexivity].
    apply lookup_insert_ne. congruence.
Qed.

Lemma request_isolation_witness :
  subscriptions (snd (handle sqlite_env
    (PostNotify (subscribe_request "a@b.co" true)) fresh)) !! "c@d.eu" = None.
Proof.
  rewrite (request_isolation sqlite_env
    (PostNotify (subscribe_request "a@b.co" true)) fresh "c@d.eu").
  - apply lookup_empty.
  - discriminate.
Defined.

(** X6. A request sends the database at most one statement, and that
    statement is about the address the request names. *)
Theorem one_statement_per_request (env : Env) (r : Request) (w : World) :
  exists qs,
    executed (snd (handle env r w)) = (executed w ++ qs)%list /\
    (length qs <= 1)%nat /\
    Forall (fun q => address_of r = Some (statement_address q)) qs.
Proof.
  destruct r as [e|e|req]; cbn [handle address_of].
  - rewrite get_subscription_effect. destruct (connected env).
    + exists [Select e]. cbn. repeat constructor.
    + exists []. rewrite app_nil_r. repeat constructor.
  - rewrite unsubscribe_effect. destruct (connected env).
    + exists [Delete e]. destruct (throws env (Delete e) w);
        cbn; repeat constructor.
    + exists []. rewrite app_nil_r. repeat constructor.
  - rewrite notify_statements. eexists. split; [reflexivity|].
    destruct (toEmail req) as [e|]; [|repeat constructor].
    destruct (saves env req e); cbn; repeat constructor.
Qed.

(** ** Invariants of runs *)

Lemma serve_cons (env : Env) (r : Request) (rs : list Request) (w : World) :
  snd (serve env (r :: rs) w) = snd (serve env rs (snd (handle env r w))).
Proof.
  cbn [serve]. unfold bind, ret.
  destruct (handle env r w) as [a w1]. cbn [snd].
  destruct (serve env rs w1) as [answers w2]. reflexivity.
Qed.

Lemma handle_never_notified (env : Env) (r : Request) (w : World) :
  never_notified (subscriptions w) ->
  never_notified (subscriptions (snd (handle env r w))).
Proof.
  unfold never_notified. intros Hinv. rewrite handle_store.
  destruct r as [e|e|req].
  - exact Hinv.
  - destruct (removes env e w); [|exact Hinv].
    apply map_Forall_delete. exact Hinv.
  - destruct (toEmail req) as [e|]; [|exact Hinv].
    destruct (writes env req e w); [|exact Hinv].
    apply map_Forall_insert_2; [|exact Hinv].
    destruct (subscriptions w !! e) as [old|] eqn:Hold; cbn [upserted last_notified_at].
    + exact (Hinv e old Hold).
    + reflexivity.
Qed.

(** X7. No route ever sets [last_notified_at]: if no row of the table has
    it set, then after any sequence of requests still no row has it set.  In
    particular it is unset in every row of a table that started empty. *)
Theorem last_notified_at_is_never_set
  (env : Env) (rs : list Request) (w : World) :
  never_notified (subscriptions w) ->
  never_notified (subscriptions (snd (serve env rs w))).
Proof.
  revert w. induction rs as [|r rs IH]; intros w Hinv.
  - exact Hinv.
  - rewrite serve_cons. apply IH, handle_never_notified, Hinv.
Qed.

Lemma last_notified_at_is_never_set_witness :
  never_notified (subscriptions (snd (serve sqlite_env
    [PostNotify (subscribe_request "a@b.co" true);
     GetSubscription "a@b.co"; PostUnsubscribe "c@d.eu"] fresh))).
Proof.
  apply last_notified_at_is_never_set. apply map_Forall_empty.
Defined.

(** X8. Only unsubscribing removes a record, and nothing changes when it
    was created: over any sequence of requests with no [/unsubscribe] of an
    address, a record that address had before is still there after, with
    the same [created_at]. *)
Theorem record_survives_without_unsubscribe
  (env : Env) (rs : list Request) (w : World) (e : string) (r : Row) :
  Forall (fun q => q <> PostUnsubscribe e) rs ->
  subscriptions w !! e = Some r ->
  exists r', subscriptions (snd (serve env rs w)) !! e = Some r' /\
             created_at r' = created_at r.
Proof.
  revert w r. induction rs as [|q rs IH]; intros w r Hno Hr.
  - exists r. split; [exact Hr|reflexivity].
  - rewrite serve_cons. inversion Hno as [|? ? Hq Hrs]; subst.
    assert (Hstep : exists r1,
      subscriptions (snd (handle env q w)) !! e = Some r1 /\
      created_at r1 = created_at r).
    { rewrite handle_store. destruct q as [e1|e1|req].
      - eauto.
      - destruct (removes env e1 w); [|eauto].
        rewrite lookup_delete_ne by congruence. eauto.
      - destruct (toEmail req) as [e1|]; [|eauto].
        destruct (writes env req e1 w); [|eauto].
        destruct (decide (e1 = e)) as [->|Hne].
        + rewrite lookup_insert_eq, Hr. eexists. split; reflexivity.
        + rewrite lookup_insert_ne by exact Hne. eauto. }
    destruct Hstep as (r1 & Hr1 & Hc1).
    destruct (IH _ r1 Hrs Hr1) as (r' & Hr' & Hc').
    exists r'. split; [exact Hr'|congruence].
Qed.

Lemma record_survives_without_unsubscribe_witness :
  exists r',
    subscriptions (snd (serve sqlite_env
      [PostNotify (subscribe_request "a@b.co" false);
       PostUnsubscribe "c@d.eu"] one_record)) !! "a@b.co" = Some r' /\
    created_at r' = 7%Z.
Proof.
  refine (record_survives_without_unsubscribe sqlite_env
    [PostNotify (subscribe_request "a@b.co" false); PostUnsubscribe "c@d.eu"]
    one_record "a@b.co"
    {| auto_notify := true; last_notified_at := None; created_at := 7 |} _ _).
  - repeat constructor; discriminate.
  - apply lookup_singleton_eq.
Defined.

(** X9. When neither database is available, nothing is ever stored: over
    any sequence of requests the table is unchanged and no statement is
    executed, and every status lookup answers not subscribed. *)
Theorem mock_never_persists (env : Env) (rs : list Request) (w : World) :
  connected env = false ->
  subscriptions (snd (serve env rs w)) = subscriptions w /\
  executed (snd (serve env rs w)) = executed w /\
  (forall e w', fst (get_subscription env e w') = status_json false false).
Proof.
  intros Hc. split; [|split].
  - revert w. induction rs as [|r rs IH]; intros w; [reflexivity|].
    rewrite serve_cons, IH, handle_store. unfold writes, removes, saves.
    rewrite Hc. destruct r as [e|e|req]; try reflexivity.
    destruct (toEmail req); [rewrite andb_false_r|]; reflexivity.
  - revert w. induction rs as [|r rs IH]; intros w; [reflexivity|].
    rewrite serve_cons, IH. destruct r as [e|e|req]; cbn [handle].
    + rewrite get_subscription_effect, Hc. reflexivity.
    + rewrite unsubscribe_effect, Hc. reflexivity.
    + rewrite notify_statements. unfold saves. rewrite Hc.
      destruct (toEmail req); [rewrite andb_false_r|]; apply app_nil_r.
  - intros e w'. rewrite get_subscription_mock by exact Hc. reflexivity.
Qed.

Lemma mock_never_persists_witness :
  executed (snd (serve mock_env
    [PostNotify (subscribe_request "a@b.co" true);
     PostUnsubscribe "a@b.co"] fresh)) = [].
Proof.
  refine (proj1 (proj2 (mock_never_persists mock_env
    [PostNotify (subscribe_request "a@b.co" true); PostUnsubscribe "a@b.co"]
    fresh _))).
  reflexivity.
Defined.

(** X10. Subscribing a new address and unsubscribing it again restores the
    table: if the address had no record, then after a [/notify] for it
    followed by an [/unsubscribe] of it the table is exactly what it was,
    provided the database does not go down for the DELETE.  (An address
    that Postgres refuses in the DELETE it refuses in the INSERT too, so
    nothing was written for it.) *)
Theorem subscribe_unsubscribe_restores
  (env : Env) (req : NotifyBody) (e : string) (w : World) :
  subscriptions w !! e = None -> toEmail req = Some e ->
  db_down env (length (executed (snd (post_notify env req w)))) = false ->
  subscriptions (snd (post_unsubscribe env e (snd (post_notify env req w)))) =
  subscriptions w.
Proof.
  intros Hnone He Hup.
  pose proof (handle_store env (PostUnsubscribe e) (snd (post_notify env req w)))
    as Hdel.
  cbn [handle] in Hdel. rewrite Hdel. clear Hdel.
  assert (Hrem : writes env req e w = true ->
                 removes env e (snd (post_notify env req w)) = true).
  { unfold writes, saves, removes, throws. rewrite Hup. cbn [orb].
    intros H. apply andb_true_iff in H as [H Hth].
    apply andb_true_iff in H as [_ ->]. cbn [andb].
    apply negb_true_iff, orb_false_iff in Hth as [_ Href].
    unfold refuses in *. destruct (POSTGRES_URL env); [|reflexivity].
    cbn [andb] in *. apply orb_false_iff in Href as [-> _]. reflexivity. }
  rewrite notify_store, He.
  destruct (writes env req e w).
  - rewrite (Hrem eq_refl), delete_insert_eq. apply delete_id, Hnone.
  - destruct (removes env e _); [apply delete_id, Hnone|reflexivity].
Qed.

Lemma subscribe_unsubscribe_restores_witness :
  subscriptions (snd (post_unsubscribe sqlite_env "a@b.co"
    (snd (post_notify sqlite_env (subscribe_request "a@b.co" true) fresh)))) = ∅.
Proof.
  refine (subscribe_unsubscribe_restores sqlite_env
    (subscribe_request "a@b.co" true) "a@b.co" fresh _ _ _).
  - apply lookup_empty.
  - reflexivity.
  - reflexivity.
Defined.

(** X11. A status lookup only reads: it leaves the table and the mails as
    they were, and sends the database one SELECT for the address it was
    given when a database is connected and nothing otherwise. *)
Theorem status_lookup_only_reads (env : Env) (e : string) (w : World) :
  subscriptions (snd (get_subscription env e w)) = subscriptions w /\
  dispatched (snd (get_subscription env e w)) = dispatched w /\
  executed (snd (get_subscription env e w)) =
    (executed w ++ if connected env then [Select e] else [])%list.
Proof.
  rewrite get_subscription_effect. destruct (connected env); cbn.
  - repeat split.
  - rewrite app_nil_r. repeat split.
Qed.

Lemma handle_mails (env : Env) (r : Request) (w : World) :
  exists ms,
    dispatched (snd (handle env r w)) = (dispatched w ++ ms)%list /\
    (length ms <= 1)%nat /\ Forall (mail_for env [r]) ms.
Proof.
  destruct r as [e|e|req]; cbn [handle].
  - exists []. rewrite app_nil_r, get_subscription_effect.
    destruct (connected env); repeat constructor.
  - exists []. rewrite app_nil_r, unsubscribe_effect.
    destruct (connected env); [|repeat constructor].
    destruct (throws env (Delete e) w); repeat constructor.
  - rewrite notify_mails. eexists. split; [reflexivity|].
    destruct (toEmail req) as [e|] eqn:He; [|repeat constructor].
    destruct (resend env); [|repeat constructor].
    destruct (test emailRegex e) eqn:Ht; [|repeat constructor].
    split; [cbn; lia|]. constructor; [|constructor].
    exists req, e. repeat split; try assumption. left. reflexivity.
Qed.

(** X12. Every mail a run of the server hands to the provider is the mail
    of one of its [/notify] requests, goes to the one address of that
    request, and that address matches [emailRegex]; and there are at most
    as many mails as requests. *)
Theorem mails_answer_valid_requests
  (env : Env) (rs : list Request) (w : World) :
  exists ms,
    dispatched (snd (serve env rs w)) = (dispatched w ++ ms)%list /\
    (length ms <= length rs)%nat /\ Forall (mail_for env rs) ms.
Proof.
  revert w. induction rs as [|r rs IH]; intros w.
  - exists []. rewrite app_nil_r. repeat constructor.
  - rewrite serve_cons.
    destruct (handle_mails env r w) as (m1 & H1 & L1 & F1).
    destruct (IH (snd (handle env r w))) as (m2 & H2 & L2 & F2).
    exists (m1 ++ m2)%list. split; [|split].
    + rewrite H2, H1, <- app_assoc. reflexivity.
    + rewrite length_app. cbn [length]. lia.
    + apply Forall_app. split.
      * eapply Forall_impl; [exact F1|].
        intros m (req & e & Hin & He & Ht & Hm). exists req, e.
        repeat split; try assumption.
        destruct Hin as [<-|[]]. left. reflexivity.
      * eapply Forall_impl; [exact F2|].
        intros m (req & e & Hin & He & Ht & Hm). exists req, e.
        repeat split; try assumption. right. exact Hin.
Qed.

End ServerFacts.

(** * Facts about the front end *)

Section AppFacts.
Import Api App.

Lemma status_codes (env : Env) (req : NotifyBody) (w : World) :
  let code := status (fst (post_notify env req w)) in
  (code = 200 \/ code = 400 \/ code = 403 \/ code = 500)%Z.
Proof.
  cbn zeta. destruct (toEmail req) as [e|] eqn:He.
  2:{ rewrite notify_rejected by (rewrite He; discriminate). cbn. auto. }
  destruct (test emailRegex e) eqn:Ht.
  2:{ rewrite notify_rejected
        by (intros e' E; rewrite He in E; injection E as <-; exact Ht).
      cbn. auto. }
  destruct (resend env) as [p|] eqn:Hp.
  - rewrite (notify_sends env req e w p He Ht Hp). cbn [fst].
    destruct (p (mail_of env req e)) as [data|msg|]; cbn; auto.
    destruct (includes msg "onboarding"); cbn; auto.
  - rewrite (notify_simulated env req e w He Ht Hp). cbn. auto.
Qed.

Lemma accepted_not_400 (env : Env) (req : NotifyBody) (e : string) (w : World) :
  toEmail req = Some e -> test emailRegex e = true ->
  status (fst (post_notify env req w)) <> 400%Z.
Proof.
  intros He Ht.
  destruct (resend env) as [p|] eqn:Hp.
  - rewrite (notify_sends env req e w p He Ht Hp). cbn [fst].
    destruct (p (mail_of env req e)) as [data|msg|]; cbn; try discriminate.
    destruct (includes msg "onboarding"); cbn; discriminate.
  - rewrite (notify_simulated env req e w He Ht Hp). cbn. discriminate.
Qed.

Lemma ok_200 (env : Env) (req : NotifyBody) (w : World) :
  ok (fst (post_notify env req w)) = true <->
  status (fst (post_notify env req w)) = 200%Z.
Proof.
  unfold ok. destruct (status_codes env req w) as [H|[H|[H|H]]];
    rewrite H; cbn; split; congruence.
Qed.

Lemma valid_not_empty (e : string) : validateEmail e = true -> e <> "".
Proof. intros H ->. discriminate H. Qed.

Lemma guard_passes (e : string) :
  validateEmail e = true ->
  String.eqb e "" || negb (validateEmail e) = false.
Proof.
  intros H. rewrite H. destruct e; [discriminate H|reflexivity].
Qed.

Lemma guard_stops (e : string) :
  validateEmail e = false ->
  String.eqb e "" || negb (validateEmail e) = true.
Proof. intros ->. apply orb_true_r. Qed.

(** ** The gate on the alert button *)

Lemma low_iff_zero (d : Risk.WeatherData) :
  Risk.level (Risk.risk (Some d)) = Risk.Low <-> Risk.score_of d = 0%Z.
Proof.
  rewrite level_risk. pose proof (score_of_nonneg d). unfold Table.level_of.
  destruct (Z.leb_spec 5 (Risk.score_of d)); [split; [discriminate|lia]|].
  destruct (Z.leb_spec 3 (Risk.score_of d)); [split; [discriminate|lia]|].
  destruct (Z.leb_spec 1 (Risk.score_of d)); [split; [discriminate|lia]|].
  split; [lia|reflexivity].
Qed.

(** X14. The button that sends the alert is enabled only when there is
    weather data whose score is at least 1, an address has been typed and
    no alert is being sent: with no data, or with a payload that scores 0,
    it is disabled. *)
Theorem alert_button_needs_risk (st : State) :
  send_disabled st = false ->
  exists d, data st = Some d /\
            (1 <= Risk.score_of (weather d))%Z /\
            email st <> "" /\ sendingEmail st = false.
Proof.
  unfold send_disabled, risk. intros H.
  apply orb_false_iff in H as [H He]. apply orb_false_iff in H as [Hs Hl].
  destruct (data st) as [d|]; [|discriminate Hl].
  exists d. split; [reflexivity|]. cbn [option_map] in Hl.
  split; [|split; [|exact Hs]].
  - pose proof (score_of_nonneg (weather d)).
    destruct (Z.eq_dec (Risk.score_of (weather d)) 0%Z) as [E|E]; [|lia].
    apply low_iff_zero in E. rewrite E in Hl. discriminate Hl.
  - intros E. rewrite E in He. discriminate He.
Qed.

Lemma alert_button_needs_risk_witness :
  exists d, data (typed (Some harsh_data) "a@b.co") = Some d /\
            (1 <= Risk.score_of (weather d))%Z.
Proof.
  destruct (alert_button_needs_risk (typed (Some harsh_data) "a@b.co") eq_refl)
    as (d & Hd & Hs & _).
  exists d. split; [exact Hd|exact Hs].
Defined.

(** ** Handlers and the server *)

(** X15. With an address that [validateEmail] rejects (the empty one
    included), no handler contacts the server: [handleNotify] only shows
    "Please enter a valid email address.", [handleUnsubscribe] does nothing
    at all, and typing the address only stores it. *)
Theorem invalid_address_stays_local
  (env : Env) (now : Z) (st : State) (w : World) :
  validateEmail (email st) = false ->
  handleNotify env now st w =
    (notify st "Please enter a valid email address." error, w) /\
  handleUnsubscribe env st w = (st, w) /\
  (forall st0, snd (onEmailChange env (email st) st0 w) = w /\
               email (fst (onEmailChange env (email st) st0 w)) = email st).
Proof.
  intros Hv. unfold handleNotify, handleUnsubscribe, onEmailChange.
  rewrite (guard_stops _ Hv), Hv. repeat split.
Qed.

Lemma invalid_address_stays_local_witness :
  handleUnsubscribe sqlite_env (typed (Some harsh_data) "not-an-email") fresh =
  (typed (Some harsh_data) "not-an-email", fresh).
Proof.
  refine (proj1 (proj2 (invalid_address_stays_local sqlite_env 0
    (typed (Some harsh_data) "not-an-email") fresh _))).
  reflexivity.
Defined.

Lemma handleNotify_runs
  (env : Env) (now : Z) (st : State) (d : Data) (w : World) :
  validateEmail (email st) = true -> data st = Some d ->
  handleNotify env now st w =
  let r := fst (post_notify env (alert_request st d) w) in
  (if ok r then
     {| data := data st; email := email st; sendingEmail := false;
        autoNotify := autoNotify st; isSubscribed := true;
        showNotification :=
          Some {| show := true;
                  msg := if truthy (field "simulated" (body r))
                         then "Alert simulated (Check server logs)"
                         else "Alert sent successfully!";
                  type := success |};
        lastAlertTime := Some now |}
   else
     {| data := data st; email := email st; sendingEmail := false;
        autoNotify := autoNotify st; isSubscribed := isSubscribed st;
        showNotification :=
          Some {| show := true;
                  msg := getErrorMessage r "Failed to send alert";
                  type := error |};
        lastAlertTime := lastAlertTime st |},
   snd (post_notify env (alert_request st d) w)).
Proof.
  intros Hv Hd. unfold handleNotify.
  rewrite (guard_passes _ Hv), Hd. unfold bind, ret.
  destruct (post_notify env (alert_request st d) w) as [r w']. reflexivity.
Qed.

(** X16. With a valid address and weather data, [handleNotify] posts one
    request that the server never refuses as an invalid address (its
    answer is never 400) and that always asks to save the subscription.
    The handler then reports success, marks the user subscribed and
    records the time exactly when the answer is 200; otherwise it shows an
    error and leaves the subscribed mark as it was. *)
Theorem alert_reaches_server
  (env : Env) (now : Z) (st : State) (d : Data) (w : World) :
  validateEmail (email st) = true -> data st = Some d ->
  let r := fst (post_notify env (alert_request st d) w) in
  let st' := fst (handleNotify env now st w) in
  snd (handleNotify env now st w) =
    snd (post_notify env (alert_request st d) w) /\
  saveEmail (alert_request st d) = true /\
  status r <> 400%Z /\
  (status r = 200%Z ->
     isSubscribed st' = true /\ lastAlertTime st' = Some now /\
     type <$> showNotification st' = Some success) /\
  (status r <> 200%Z ->
     isSubscribed st' = isSubscribed st /\
     lastAlertTime st' = lastAlertTime st /\
     type <$> showNotification st' = Some error) /\
  sendingEmail st' = false.
Proof.
  intros Hv Hd. cbn zeta. rewrite (handleNotify_runs env now st d w Hv Hd).
  cbn zeta. cbn [fst snd].
  split; [reflexivity|]. split; [reflexivity|].
  split; [apply (accepted_not_400 env _ (email st)); [reflexivity|exact Hv]|].
  pose proof (ok_200 env (alert_request st d) w) as Hok.
  destruct (ok (fst (post_notify env (alert_request st d) w))).
  - assert (H200 : status (fst (post_notify env (alert_request st d) w)) = 200%Z)
      by (apply Hok; reflexivity).
    split; [intros _; repeat split|]. split; [|reflexivity].
    intros Hne. contradiction.
  - split; [|split; [intros _; repeat split|reflexivity]].
    intros H200. apply Hok in H200. discriminate H200.
Qed.

Lemma alert_reaches_server_witness :
  status (fst (post_notify sqlite_env
    (alert_request (typed (Some harsh_data) "a@b.co") harsh_data) fresh))
  <> 400%Z.
Proof.
  refine (proj1 (proj2 (proj2 (alert_reaches_server sqlite_env 0
    (typed (Some harsh_data) "a@b.co") harsh_data fresh _ _))));
    reflexivity.
Defined.

Lemma valid_has_at (e : string) :
  validateEmail e = true -> includes e "@" = true.
Proof.
  intros H. apply emailRegex_shape in H as (l & d & t & -> & _).
  apply includes_spec. exists l, (d ++ "." ++ t). reflexivity.
Qed.

(** What the component reads off the answer of a status lookup. *)
Lemma checkSubscription_runs (env : Env) (e : string) (st : State) (w : World) :
  validateEmail e = true ->
  checkSubscription env e st w =
  (let found :=
     if connected env && negb (throws env (Select e) w)
     then subscriptions w !! e else None in
   {| data := data st; email := email st; sendingEmail := sendingEmail st;
      autoNotify := match found with
                    | Some r => auto_notify r
                    | None => false
                    end;
      isSubscribed := bool_decide (is_Some found);
      showNotification := showNotification st;
      lastAlertTime := lastAlertTime st |},
   snd (get_subscription env e w)).
Proof.
  intros Hv. unfold checkSubscription. rewrite (valid_has_at e Hv).
  cbn [negb]. unfold bind, ret. rewrite get_subscription_effect.
  destruct (connected env); [|reflexivity].
  destruct (throws env (Select e) w); cbn [andb negb].
  - destruct (POSTGRES_URL env); reflexivity.
  - destruct (subscriptions w !! e); reflexivity.
Qed.

Lemma onEmailChange_runs (env : Env) (v : string) (st : State) (w : World) :
  validateEmail v = true ->
  onEmailChange env v st w =
  (let found :=
     if connected env && negb (throws env (Select v) w)
     then subscriptions w !! v else None in
   {| data := data st; email := v; sendingEmail := sendingEmail st;
      autoNotify := match found with
                    | Some r => auto_notify r
                    | None => false
                    end;
      isSubscribed := bool_decide (is_Some found);
      showNotification := showNotification st;
      lastAlertTime := lastAlertTime st |},
   snd (get_subscription env v w)).
Proof.
  intros Hv. unfold onEmailChange. rewrite Hv.
  rewrite checkSubscription_runs by exact Hv. reflexivity.
Qed.

(** X17. Typing a valid address makes the component mirror the record of
    exactly that address.  With a database connected, the address is stored
    in the component and the table is left as it was; when the database
    executes the lookup, the subscribed mark becomes whether the address
    has a record and the auto-notify switch becomes the flag of that
    record, or off when there is none; when the driver throws on the
    lookup, the mark and the switch both go off. *)
Theorem typing_mirrors_record (env : Env) (v : string) (st : State) (w : World) :
  validateEmail v = true -> connected env = true ->
  let st' := fst (onEmailChange env v st w) in
  email st' = v /\
  subscriptions (snd (onEmailChange env v st w)) = subscriptions w /\
  (throws env (Select v) w = false ->
   isSubscribed st' = bool_decide (is_Some (subscriptions w !! v)) /\
   autoNotify st' = match subscriptions w !! v with
                    | Some r => auto_notify r
                    | None => false
                    end) /\
  (throws env (Select v) w = true ->
   isSubscribed st' = false /\ autoNotify st' = false).
Proof.
  intros Hv Hc. cbn zeta. rewrite (onEmailChange_runs env v st w Hv).
  cbn zeta. rewrite Hc. cbn [fst snd email isSubscribed autoNotify andb].
  split; [reflexivity|]. split; [apply get_subscription_keeps_table|].
  split; intros ->; split; reflexivity.
Qed.

Lemma typing_mirrors_record_witness :
  isSubscribed (fst (onEmailChange sqlite_env "a@b.co"
                       (typed None "") one_record)) = true.
Proof.
  destruct (typing_mirrors_record sqlite_env "a@b.co" (typed None "")
              one_record eq_refl eq_refl) as (_ & _ & H & _).
  rewrite (proj1 (H eq_refl)). reflexivity.
Defined.

(** X18. A new subscriber is saved with auto-notify off.  When a valid
    address without a record is typed and the alert is then sent, with a
    database connected and weather data present, the lookup made on typing
    has turned the switch off, whatever it showed before; and when the
    database executes the upsert of the alert, the record it writes for the
    address has [auto_notify] false. *)
Theorem new_subscriber_has_auto_notify_off
  (env : Env) (now : Z) (v : string) (st : State) (d : Data) (w : World) :
  validateEmail v = true -> connected env = true ->
  subscriptions w !! v = None -> data st = Some d ->
  let (st1, w1) := onEmailChange env v st w in
  let (st2, w2) := handleNotify env now st1 w1 in
  autoNotify st1 = false /\
  (throws env (Upsert v false) w1 = false ->
   auto_notify <$> subscriptions w2 !! v = Some false).
Proof.
  intros Hv Hc Hnone Hd.
  rewrite (onEmailChange_runs env v st w Hv). cbn zeta.
  rewrite Hnone.
  replace (if connected env && negb (throws env (Select v) w)
           then @None Row else None) with (@None Row)
    by (destruct (_ && _); reflexivity).
  set (st1 := {| data := data st; email := v |}).
  set (w1 := snd (get_subscription env v w)).
  rewrite (handleNotify_runs env now st1 d w1 Hv Hd). cbn zeta.
  split; [reflexivity|]. intros Hth.
  rewrite notify_store. cbn [alert_request toEmail email st1].
  unfold writes, saves. unfold validateEmail in Hv. rewrite Hv, Hc.
  change (saveEmail (alert_request st1 d)) with true.
  change (Api.autoNotify (alert_request st1 d)) with false.
  rewrite Hth. cbn [andb negb]. rewrite lookup_insert_eq.
  destruct (subscriptions w1 !! v); reflexivity.
Qed.

Lemma new_subscriber_has_auto_notify_off_witness :
  auto_notify <$>
    subscriptions
      (snd (handleNotify sqlite_env 0
              (fst (onEmailChange sqlite_env "a@b.co"
                      (typed (Some harsh_data) "") fresh))
              (snd (onEmailChange sqlite_env "a@b.co"
                      (typed (Some harsh_data) "") fresh)))) !! "a@b.co"
  = Some false.
Proof.
  pose proof (new_subscriber_has_auto_notify_off sqlite_env 0 "a@b.co"
                (typed (Some harsh_data) "") harsh_data fresh
                eq_refl eq_refl (lookup_empty _) eq_refl) as H.
  destruct (onEmailChange sqlite_env "a@b.co" (typed (Some harsh_data) "") fresh)
    as [st1 w1].
  cbn [fst snd].
  destruct (handleNotify sqlite_env 0 st1 w1) as [st2 w2].
  exact (proj2 H eq_refl).
Defined.

(** X19. When neither database is available and no mail provider is
    configured, sending an alert still marks the user subscribed, with the
    message "Alert simulated (Check server logs)", although the server has
    stored nothing: typing the same address again shows not subscribed. *)
Theorem subscribed_mark_without_record
  (env : Env) (now : Z) (st : State) (d : Data) (w : World) :
  validateEmail (email st) = true -> data st = Some d ->
  connected env = false -> resend env = None ->
  let (st1, w1) := handleNotify env now st w in
  isSubscribed st1 = true /\
  msg <$> showNotification st1 = Some "Alert simulated (Check server logs)" /\
  subscriptions w1 = subscriptions w /\
  isSubscribed (fst (onEmailChange env (email st) st1 w1)) = false.
Proof.
  intros Hv Hd Hc Hr.
  rewrite (handleNotify_runs env now st d w Hv Hd). cbn zeta.
  rewrite (notify_simulated env (alert_request st d) (email st) w
             eq_refl Hv Hr).
  cbn [fst snd ok simulated_json status body]. cbn [saveEmail alert_request].
  rewrite upsert_effect, Hc.
  split; [reflexivity|]. split; [reflexivity|]. split; [reflexivity|].
  rewrite (onEmailChange_runs env (email st) _ w Hv). cbn zeta.
  rewrite Hc. reflexivity.
Qed.

Lemma subscribed_mark_without_record_witness :
  isSubscribed (fst (handleNotify mock_env 0
                       (typed (Some harsh_data) "a@b.co") fresh)) = true.
Proof.
  pose proof (subscribed_mark_without_record mock_env 0
                (typed (Some harsh_data) "a@b.co") harsh_data fresh
                eq_refl eq_refl eq_refl eq_refl) as H.
  destruct (handleNotify mock_env 0 (typed (Some harsh_data) "a@b.co") fresh)
    as [st1 w1].
  exact (proj1 H).
Defined.



(** ** The mail and the chart *)

(** X20. The background of the alert mail tells only two levels apart: it
    is #fff1f2 for Extreme and #fff7ed for High, and for every other
    assessment, Moderate as well as Low and the one without data, the
    default #f0fdf4. *)
Theorem alert_colour_by_level (st : State) :
  Template.bgColor (Risk.bgColor (risk st)) =
  match Risk.level (risk st) with
  | Risk.Extreme => "#fff1f2"
  | Risk.High => "#fff7ed"
  | Risk.Moderate | Risk.Low => "#f0fdf4"
  end.
Proof.
  unfold risk. destruct (data st) as [d|]; [|reflexivity].
  cbn [option_map]. rewrite risk_some. unfold Risk.assess, Risk.conclude.
  destruct (_ >=? 5)%Z; [reflexivity|].
  destruct (_ >=? 3)%Z; [reflexivity|].
  destruct (_ >=? 1)%Z; reflexivity.
Qed.

Lemma Math_round_near (x : Q) :
  (inject_Z (Math_round x) - (1 # 2) <= x < inject_Z (Math_round x) + (1 # 2))%Q.
Proof.
  unfold Math_round.
  pose proof (Qfloor_le (x + (1 # 2))) as Hlo.
  pose proof (Qlt_floor (x + (1 # 2))) as Hhi.
  rewrite inject_Z_plus in Hhi.
  change (inject_Z 1) with 1%Q in Hhi.
  split; lra.
Qed.

(** X21. The chart shows the first eight forecast entries, in order and no
    more: it has as many points as the forecast has entries, up to eight,
    and its i-th point carries the humidity of the i-th entry unchanged,
    the time label of its [dt] in milliseconds, and a whole temperature
    within half a degree of the entry's (halves rounded up). *)
Theorem chart_is_first_eight
  (clock : Q -> string) (st : State) (d : Data) :
  data st = Some d ->
  length (chartData clock st) = Nat.min 8 (length (forecast_list d)) /\
  forall (i : nat) (p : ChartPoint),
    chartData clock st !! i = Some p ->
    (i < 8)%nat /\
    exists item, forecast_list d !! i = Some item /\
      humidity p = main_humidity item /\
      time p = clock (dt item * 1000)%Q /\
      (inject_Z (temp p) - (1 # 2) <= main_temp item
       < inject_Z (temp p) + (1 # 2))%Q.
Proof.
  intros Hd. unfold chartData. rewrite Hd. split.
  - rewrite length_map. apply length_take.
  - intros i p Hp.
    change (map ?f ?l) with (f <$> l) in Hp.
    rewrite list_lookup_fmap in Hp.
    destruct (take 8 (forecast_list d) !! i) as [item|] eqn:Hi;
      [|discriminate Hp].
    apply lookup_take_Some in Hi as [Hi Hlt].
    injection Hp as <-. split; [exact Hlt|].
    exists item. split; [exact Hi|]. cbn [humidity time temp].
    split; [reflexivity|]. split; [reflexivity|]. apply Math_round_near.
Qed.

Lemma chart_is_first_eight_witness :
  length (chartData (fun _ => "") (typed (Some ten_day_data) "")) = 8%nat.
Proof.
  exact (proj1 (chart_is_first_eight (fun _ => "")
                  (typed (Some ten_day_data) "") ten_day_data eq_refl)).
Defined.

(** ** The label of the air-quality index *)

Lemma at_index_whole {A} (l : list A) (i : Q) (n : nat) :
  (i == inject_Z (Z.of_nat n))%Q -> at_index l i = nth_error l n.
Proof.
  intros H. unfold at_index.
  rewrite (Qred_complete _ _ H), inject_Z_Qred. cbn [inject_Z Qden Qnum].
  replace (0 <=? Z.of_nat n)%Z with true by (symmetry; apply Z.leb_le; lia).
  rewrite Nat2Z.id. reflexivity.
Qed.

Lemma at_index_Some {A} (l : list A) (i : Q) (x : A) :
  at_index l i = Some x ->
  exists n, (i == inject_Z (Z.of_nat n))%Q /\ nth_error l n = Some x.
Proof.
  unfold at_index. intros H.
  destruct (Pos.eqb_spec (Qden (Qred i)) 1) as [Hden|]; [|discriminate H].
  destruct (Z.leb_spec 0 (Qnum (Qred i))) as [Hnum|]; [|discriminate H].
  exists (Z.to_nat (Qnum (Qred i))). split; [|exact H].
  rewrite Z2Nat.id by exact Hnum.
  rewrite <- (Qred_correct i) at 1.
  destruct (Qred i) as [num den]. cbn in Hden. subst den. reflexivity.
Qed.

(** X22. The label of the AQI figure exists exactly for the five whole
    readings: a payload whose reading (1 when missing or 0) is 1, 2, 3, 4
    or 5 is labelled Good, Fair, Moderate, Poor or Very Poor, and for any
    other reading, a fractional or larger one, reading the label off the
    table fails. *)
Theorem aqi_label_defined (d : Data) :
  let a := Risk.aqi_of (weather d) in
  ((a == 1)%Q -> aqi_label (Some d) = Some "Good") /\
  ((a == 2)%Q -> aqi_label (Some d) = Some "Fair") /\
  ((a == 3)%Q -> aqi_label (Some d) = Some "Moderate") /\
  ((a == 4)%Q -> aqi_label (Some d) = Some "Poor") /\
  ((a == 5)%Q -> aqi_label (Some d) = Some "Very Poor") /\
  (aqi_label (Some d) = None <-> ~ whole_index a).
Proof.
  cbn zeta. unfold aqi_label. set (a := Risk.aqi_of (weather d)).
  assert (Hk : forall n : nat, (a == inject_Z (Z.of_nat (S n)))%Q ->
             at_index AQI_LEVELS (a - 1) = nth_error AQI_LEVELS n).
  { intros n H. apply at_index_whole. rewrite H.
    rewrite Nat2Z.inj_succ, <- Z.add_1_r, inject_Z_plus.
    change (inject_Z 1) with 1%Q. ring. }
  split; [intros H; rewrite (Hk 0%nat) by exact H; reflexivity|].
  split; [intros H; rewrite (Hk 1%nat) by exact H; reflexivity|].
  split; [intros H; rewrite (Hk 2%nat) by exact H; reflexivity|].
  split; [intros H; rewrite (Hk 3%nat) by exact H; reflexivity|].
  split; [intros H; rewrite (Hk 4%nat) by exact H; reflexivity|].
  split.
  - intros Hnone [H|[H|[H|[H|H]]]].
    + rewrite (Hk 0%nat) in Hnone by exact H. discriminate Hnone.
    + rewrite (Hk 1%nat) in Hnone by exact H. discriminate Hnone.
    + rewrite (Hk 2%nat) in Hnone by exact H. discriminate Hnone.
    + rewrite (Hk 3%nat) in Hnone by exact H. discriminate Hnone.
    + rewrite (Hk 4%nat) in Hnone by exact H. discriminate Hnone.
  - intros Hnot.
    destruct (at_index AQI_LEVELS (a - 1)) as [entry|] eqn:Hi; [|reflexivity].
    exfalso. apply Hnot.
    apply at_index_Some in Hi as (n & Hn & Hnth).
    assert (Ha : (a == inject_Z (Z.of_nat (S n)))%Q).
    { rewrite Nat2Z.inj_succ, <- Z.add_1_r, inject_Z_plus.
      change (inject_Z 1) with 1%Q. rewrite <- Hn. ring. }
    unfold whole_index.
    destruct n as [|[|[|[|[|n]]]]]; cbn in Hnth.
    + left. exact Ha.
    + right. left. exact Ha.
    + right. right. left. exact Ha.
    + right. right. right. left. exact Ha.
    + right. right. right. right. exact Ha.
    + destruct n; discriminate Hnth.
Qed.

Lemma aqi_label_defined_witness :
  aqi_label (Some harsh_data) = Some "Poor" /\
  aqi_label (Some {| weather := reading 20 50 3 (5 # 2);
                     current_name := "Nice"; forecast_list := [] |}) = None.
Proof.
  split.
  - apply (aqi_label_defined harsh_data). reflexivity.
  - apply (aqi_label_defined
             {| weather := reading 20 50 3 (5 # 2);
                current_name := "Nice"; forecast_list := [] |}).
    intros [H|[H|[H|[H|H]]]]; discriminate H.
Defined.

Lemma no_aqi_trigger_below_3 (d : Risk.WeatherData) :
  (Risk.aqi_of d < 3)%Q ->
  ~ In "Moderate Air Pollution" (Risk.triggers (Risk.risk (Some d))) /\
  ~ In "Poor Air Quality" (Risk.triggers (Risk.risk (Some d))).
Proof.
  intros Ha.
  assert (H3 : Qgeb (Risk.aqi_of d) 3 = false) by (apply Qgeb_lt; lra).
  assert (H4 : Qgeb (Risk.aqi_of d) 4 = false) by (apply Qgeb_lt; lra).
  split; intros Hin;
    apply trigger_sound in Hin as [Hin|(e & Hin & Hc & Hl)];
    try discriminate Hin; cbn in Hin;
    repeat (destruct Hin as [<-|Hin]; [try discriminate Hl|]);
    try contradiction; cbn in Hc.
  - change (Qgeb (Risk.aqi_of d) 3 = true) in Hc. congruence.
  - change (Qgeb (Risk.aqi_of d) 4 = true) in Hc. congruence.
Qed.

Lemma first_match_in (s : Table.Snapshot) (g : list Table.Entry) (e : Table.Entry) :
  In e (Table.first_match s g) -> In e g.
Proof.
  unfold Table.first_match. destruct (find _ g) as [e'|] eqn:Hf; [|contradiction].
  intros [<-|[]]. apply find_some in Hf as [Hin _]. exact Hin.
Qed.

Lemma poor_trigger_from_4 (d : Risk.WeatherData) :
  (4 <= Risk.aqi_of d)%Q ->
  In "Poor Air Quality" (Risk.triggers (Risk.risk (Some d))) /\
  ~ In "Moderate Air Pollution" (Risk.triggers (Risk.risk (Some d))).
Proof.
  intros Ha.
  assert (H4 : Qgeb (Risk.aqi_of d) 4 = true) by (apply Qgeb_ge; exact Ha).
  assert (Hs : (3 <= Risk.score_of d)%Z).
  { rewrite score_of_points. unfold aqi_points. rewrite H4.
    pose proof (temp_points_range (Risk.current_main_temp d)).
    pose proof (humidity_points_range (Risk.current_main_humidity d)).
    pose proof (wind_points_range (Risk.current_wind_speed d)). lia. }
  assert (Hfirst : Table.first_match (Table.snapshot d) Table.aqi_rows =
                   [hd {| Table.condition := fun _ => false; Table.delta := 0; Table.label := ""; Table.text := "" |} Table.aqi_rows]).
  { unfold Table.first_match, Table.aqi_rows. cbn [find Table.condition hd].
    change (Table.airQualityIndex (Table.snapshot d)) with (Risk.aqi_of d).
    rewrite H4. reflexivity. }
  rewrite triggers_risk.
  destruct (Z.eqb_spec (Risk.score_of d) 0); [lia|].
  unfold Table.matched, Table.table. cbn [map concat]. rewrite Hfirst.
  cbn [hd Table.aqi_rows app map Table.label]. split; [left; reflexivity|].
  intros [Hin|Hin]; [discriminate Hin|].
  apply in_map_iff in Hin as (e & Hl & He).
  repeat (apply in_app_or in He as [He|He];
          [apply first_match_in in He; cbn in He;
           repeat (destruct He as [<-|He]; [discriminate Hl|]);
           contradiction|]).
  contradiction.
Qed.

(** X23. The label of the AQI figure and the risk assessment agree on the
    air: whenever the label is shown, Good or Fair come with no air-quality
    trigger, Moderate comes with "Moderate Air Pollution" and without "Poor
    Air Quality", and Poor or Very Poor come with "Poor Air Quality" and
    without "Moderate Air Pollution". *)
Theorem aqi_label_matches_triggers (d : Data) (l : string) :
  aqi_label (Some d) = Some l ->
  let ts := Risk.triggers (Risk.risk (Some (weather d))) in
  (l = "Good" \/ l = "Fair" ->
   ~ In "Moderate Air Pollution" ts /\ ~ In "Poor Air Quality" ts) /\
  (l = "Moderate" ->
   In "Moderate Air Pollution" ts /\ ~ In "Poor Air Quality" ts) /\
  (l = "Poor" \/ l = "Very Poor" ->
   In "Poor Air Quality" ts /\ ~ In "Moderate Air Pollution" ts).
Proof.
  unfold aqi_label. intros H. cbn zeta.
  destruct (at_index AQI_LEVELS (Risk.aqi_of (weather d) - 1)) as [entry|] eqn:Hi;
    [|discriminate H].
  injection H as <-.
  apply at_index_Some in Hi as (n & Hn & Hnth).
  assert (Ha : (Risk.aqi_of (weather d) == inject_Z (Z.of_nat (S n)))%Q).
  { rewrite Nat2Z.inj_succ, <- Z.add_1_r, inject_Z_plus.
    change (inject_Z 1) with 1%Q. rewrite <- Hn. ring. }
  destruct n as [|[|[|[|[|n]]]]]; cbn in Hnth;
    try (destruct n; discriminate Hnth);
    injection Hnth as <-; cbn [label]; clear Hn.
  - assert (Ha' : (Risk.aqi_of (weather d) == 1)%Q) by exact Ha.
    destruct (no_aqi_trigger_below_3 (weather d)) as [H1 H2]; [lra|].
    split; [auto|]. split; [discriminate|]. intros [E|E]; discriminate E.
  - assert (Ha' : (Risk.aqi_of (weather d) == 2)%Q) by exact Ha.
    destruct (no_aqi_trigger_below_3 (weather d)) as [H1 H2]; [lra|].
    split; [auto|]. split; [discriminate|]. intros [E|E]; discriminate E.
  - assert (Ha' : (Risk.aqi_of (weather d) == 3)%Q) by exact Ha.
    destruct (moderate_label_at_3 (weather d) Ha') as (_ & H1 & H2).
    split; [intros [E|E]; discriminate E|].
    split; [auto|]. intros [E|E]; discriminate E.
  - assert (Ha' : (Risk.aqi_of (weather d) == 4)%Q) by exact Ha.
    destruct (poor_trigger_from_4 (weather d)) as [H1 H2]; [lra|].
    split; [intros [E|E]; discriminate E|]. split; [discriminate|]. auto.
  - assert (Ha' : (Risk.aqi_of (weather d) == 5)%Q) by exact Ha.
    destruct (poor_trigger_from_4 (weather d)) as [H1 H2]; [lra|].
    split; [intros [E|E]; discriminate E|]. split; [discriminate|]. auto.
Qed.

Lemma aqi_label_matches_triggers_witness :
  In "Poor Air Quality" (Risk.triggers (Risk.risk (Some (weather harsh_data)))).
Proof.
  refine (proj1 (proj2 (proj2 (aqi_label_matches_triggers harsh_data "Poor" _)) _)).
  - reflexivity.
  - left. reflexivity.
Defined.

End AppFacts.

(** * More facts about the pattern *)

Section PatternFacts.
Import Api.

Lemma occurrences_app (c : ascii) (s1 s2 : string) :
  occurrences c (s1 ++ s2) = (occurrences c s1 + occurrences c s2)%nat.
Proof.
  induction s1 as [|d s1 IH].
  - rewrite append_nil_l. reflexivity.
  - rewrite append_cons. cbn [occurrences]. rewrite IH. lia.
Qed.

Lemma has_space_app (s1 s2 : string) :
  has_space (s1 ++ s2) = has_space s1 || has_space s2.
Proof.
  induction s1 as [|d s1 IH].
  - rewrite append_nil_l. reflexivity.
  - rewrite append_cons. cbn [has_space]. rewrite IH. apply orb_assoc.
Qed.

Lemma plain_iff (s : string) :
  plain s = true <-> has_space s = false /\ occurrences "@" s = 0%nat.
Proof.
  induction s as [|c s IH]; cbn [plain has_space occurrences].
  - split; [split; reflexivity|reflexivity].
  - rewrite andb_true_iff, IH, orb_false_iff.
    unfold atom_has, not_space_at. cbn [existsb item_has].
    rewrite orb_false_r, negb_true_iff, orb_false_iff.
    destruct (Ascii.eqb "@" c); cbn; split;
      try (intros [[? ?] [? ?]]; repeat split; congruence);
      try (intros [[? ?] ?]; repeat split; try congruence; lia).
Qed.

(** X13. [emailRegex], the pattern of the server and of [validateEmail],
    accepts exactly the strings that contain no white space and exactly one
    [@], and that are made of a non-empty part, the [@], a non-empty part,
    a dot and a non-empty part. *)
Theorem emailRegex_accepts_exactly (s : string) :
  test emailRegex s = true <->
  has_space s = false /\ occurrences "@" s = 1%nat /\
  exists l d t, s = l ++ "@" ++ d ++ "." ++ t /\
                l <> "" /\ d <> "" /\ t <> "".
Proof.
  rewrite emailRegex_shape. split.
  - intros (l & d & t & -> & [Hl Pl] & [Hd Pd] & [Ht Pt]).
    apply plain_iff in Pl as [Sl Ol], Pd as [Sd Od], Pt as [St Ot].
    rewrite !has_space_app, !occurrences_app, Sl, Sd, St, Ol, Od, Ot.
    split; [reflexivity|]. split; [reflexivity|].
    exists l, d, t. repeat split; assumption.
  - intros (Hs & Ho & l & d & t & -> & Hl & Hd & Ht).
    rewrite !has_space_app in Hs. rewrite !occurrences_app in Ho.
    cbn [has_space occurrences] in Hs, Ho.
    change (Ascii.eqb "@" "@") with true in Ho.
    change (Ascii.eqb "@" ".") with false in Ho. cbv iota in Ho.
    repeat (apply orb_false_iff in Hs as [? Hs]).
    exists l, d, t. split; [reflexivity|].
    repeat split; try assumption; apply plain_iff; split;
      first [assumption | lia].
Qed.

End PatternFacts.

(** * Facts about the weather routes *)

Section WeatherFacts.
Import Weather.
Context {Payload : Type} (coord : Payload -> option (string * string)).

Lemma present_Some (s : option string) (v : string) :
  present s = Some v -> s = Some v /\ v <> "".
Proof.
  destruct s as [[|c s]|]; cbn; try discriminate.
  intros H. injection H as <-. split; [reflexivity|discriminate].
Qed.

(** X24. [/weather] without latitude or longitude, missing or empty, is
    answered 400 "Latitude and longitude are required" without any request
    to the weather provider, whether or not an API key is configured. *)
Theorem weather_needs_coordinates
  (env : @Env Payload) (lat lon : option string) (log : list string) :
  present lat = None \/ present lon = None ->
  get_weather env lat lon log =
  ({| code := 400; body := Error "Latitude and longitude are required" |}, log).
Proof.
  unfold get_weather. intros [H|H]; rewrite H; [reflexivity|].
  destruct (present lat); reflexivity.
Qed.

(** X25. Without an API key (unset or empty) the weather routes never
    contact the provider: [/weather] with coordinates answers 200 with the
    demo payload, [/weather/search] answers 400 whatever the query, and the
    demo payload scores 0, so that with it on screen the alert button is
    disabled whatever address is typed. *)
Theorem without_api_key (env : @Env Payload) :
  present (OPENWEATHER_API_KEY env) = None ->
  (forall lat lon a b log,
     present lat = Some a -> present lon = Some b ->
     get_weather env lat lon log =
     ({| code := 200; body := Demo (demo env) |}, log)) /\
  (forall q log,
     code (fst (get_weather_search coord env q log)) = 400%Z /\
     snd (get_weather_search coord env q log) = log) /\
  Risk.score_of (App.weather (demo env)) = 0%Z /\
  (forall st, App.data st = Some (demo env) -> App.send_disabled st = true).
Proof.
  intros Hk. split; [|split; [|split]].
  - intros lat lon a b log Ha Hb. unfold get_weather.
    rewrite Ha, Hb, Hk. reflexivity.
  - intros q log. unfold get_weather_search. rewrite Hk.
    destruct (present q); split; reflexivity.
  - reflexivity.
  - intros st Hd. unfold App.send_disabled, App.risk. rewrite Hd.
    cbn [option_map].
    assert (Hlow : Risk.level (Risk.risk (Some (App.weather (demo env)))) = Risk.Low)
      by reflexivity.
    rewrite Hlow. rewrite orb_true_r. reflexivity.
Qed.

Lemma first_rejection_in (env : @Env Payload) (os : list Outcome) :
  failures os <> [] -> In (first_rejection env os) (failures os).
Proof.
  intros Hne. unfold first_rejection. apply nth_In.
  apply Nat.mod_upper_bound. destruct (failures os); [contradiction|discriminate].
Qed.

(** X26. With an API key and coordinates, [/weather] sends the provider
    exactly three requests, for the current weather, the forecast and the
    air pollution at those coordinates, in that order and whatever they
    return.  If all three resolve, the answer is 200 with the three
    payloads unchanged; otherwise it is the error answer for one of the
    requests that failed: that request's status, or 500 without one, and
    its message, or "Failed to fetch weather data" without one. *)
Theorem weather_asks_three_times
  (env : @Env Payload) (lat lon : option string) (a b k : string)
  (log : list string) :
  present lat = Some a -> present lon = Some b ->
  present (OPENWEATHER_API_KEY env) = Some k ->
  let o1 := axios_get env (weather_url a b k) in
  let o2 := axios_get env (forecast_url a b k) in
  let o3 := axios_get env (air_pollution_url a b k) in
  snd (get_weather env lat lon log) =
    (log ++ [weather_url a b k; forecast_url a b k; air_pollution_url a b k])%list /\
  (forall current forecast aqi,
     o1 = Resolved current -> o2 = Resolved forecast -> o3 = Resolved aqi ->
     fst (get_weather env lat lon log) =
     {| code := 200; body := Live current forecast aqi |}) /\
  (failures [o1; o2; o3] <> [] ->
   exists e, In e (failures [o1; o2; o3]) /\
     fst (get_weather env lat lon log) =
     failed 500 "Failed to fetch weather data" e).
Proof.
  intros Ha Hb Hk. cbn zeta. unfold get_weather. rewrite Ha, Hb, Hk.
  unfold get. cbn [fst snd]. split; [|split].
  - rewrite <- !app_assoc. reflexivity.
  - intros current forecast aqi -> -> ->. reflexivity.
  - intros Hne.
    exists (first_rejection env
              [axios_get env (weather_url a b k);
               axios_get env (forecast_url a b k);
               axios_get env (air_pollution_url a b k)]).
    split; [apply first_rejection_in, Hne|].
    destruct (axios_get env (weather_url a b k)),
      (axios_get env (forecast_url a b k)),
      (axios_get env (air_pollution_url a b k)); try reflexivity.
    cbn in Hne. contradiction.
Qed.

(** X27. [/weather/search] without a query is answered 400 "City name is
    required" with no request.  With a query and an API key it first asks
    the provider for the city; if that request fails, or its payload has no
    coordinates, nothing more is requested and the answer is an error with
    the request's status, or 404 without one.  Otherwise it asks for the
    forecast and the air pollution at the coordinates of the city, and when
    both resolve it answers 200 with the city's payload as current
    weather. *)
Theorem search_looks_up_city_first
  (env : @Env Payload) (q : option string) (log : list string) :
  (present q = None ->
   get_weather_search coord env q log =
   ({| code := 400; body := Error "City name is required" |}, log)) /\
  (forall c k,
     present q = Some c -> present (OPENWEATHER_API_KEY env) = Some k ->
     (forall e, axios_get env (city_url c k) = Rejected e ->
        get_weather_search coord env q log =
        (failed 404 "City not found" e, (log ++ [city_url c k])%list)) /\
     (forall current, axios_get env (city_url c k) = Resolved current ->
        coord current = None ->
        get_weather_search coord env q log =
        ({| code := 404; body := Error "City not found" |},
         (log ++ [city_url c k])%list)) /\
     (forall current lat lon,
        axios_get env (city_url c k) = Resolved current ->
        coord current = Some (lat, lon) ->
        snd (get_weather_search coord env q log) =
          (log ++ [city_url c k; forecast_url lat lon k;
                   air_pollution_url lat lon k])%list /\
        (forall forecast aqi,
           axios_get env (forecast_url lat lon k) = Resolved forecast ->
           axios_get env (air_pollution_url lat lon k) = Resolved aqi ->
           fst (get_weather_search coord env q log) =
           {| code := 200; body := Live current forecast aqi |}))).
Proof.
  split.
  - intros Hq. unfold get_weather_search. rewrite Hq. reflexivity.
  - intros c k Hq Hk. unfold get_weather_search. rewrite Hq, Hk.
    unfold get. split; [|split].
    + intros e ->. reflexivity.
    + intros current -> ->. reflexivity.
    + intros current lat lon -> ->. cbn [fst snd]. split.
      * rewrite <- !app_assoc. reflexivity.
      * intros forecast aqi -> ->. reflexivity.
Qed.

End WeatherFacts.

Lemma weather_needs_coordinates_witness :
  Weather.get_weather
    (provider_env (Some "key") (fun _ => Weather.Rejected unauthorized))
    (Some "59.91") (Some "") [] =
  ({| Weather.code := 400;
      Weather.body := Weather.Error "Latitude and longitude are required" |}, []).
Proof.
  apply weather_needs_coordinates. right. reflexivity.
Defined.

Lemma without_api_key_witness :
  Weather.code
    (fst (Weather.get_weather_search oslo
            (provider_env None (fun _ => Weather.Resolved "payload"))
            (Some "Oslo") [])) = 400%Z.
Proof.
  destruct (without_api_key oslo
              (provider_env None (fun _ => Weather.Resolved "payload")) eq_refl)
    as (_ & H & _).
  exact (proj1 (H (Some "Oslo") [])).
Defined.

Lemma weather_asks_three_times_witness :
  snd (Weather.get_weather
         (provider_env (Some "key") (fun _ => Weather.Rejected unauthorized))
         (Some "59.91") (Some "10.75") []) =
  [Weather.weather_url "59.91" "10.75" "key";
   Weather.forecast_url "59.91" "10.75" "key";
   Weather.air_pollution_url "59.91" "10.75" "key"].
Proof.
  exact (proj1 (weather_asks_three_times
    (provider_env (Some "key") (fun _ => Weather.Rejected unauthorized))
    (Some "59.91") (Some "10.75") "59.91" "10.75" "key" []
    eq_refl eq_refl eq_refl)).
Defined.

Lemma search_looks_up_city_first_witness :
  Weather.get_weather_search oslo
    (provider_env (Some "key") (fun _ => Weather.Rejected unauthorized))
    (Some "Oslo") [] =
  ({| Weather.code := 401; Weather.body := Weather.Error "Invalid API key" |},
   [Weather.city_url "Oslo" "key"]).
Proof.
  destruct (search_looks_up_city_first oslo
    (provider_env (Some "key") (fun _ => Weather.Rejected unauthorized))
    (Some "Oslo") []) as (_ & H).
  destruct (H "Oslo" "key" eq_refl eq_refl) as (Hfail & _).
  exact (Hfail unauthorized eq_refl).
Defined.
